(** * The Deno build script of the pothos repository

    A shallow embedding of [packages/deno/scripts/build.ts]: the
    rewriting of import/export module specifiers, the derivation of the
    output paths, package discovery, file enumeration and the build
    driver, together with the parts of Node's POSIX [path] module and of
    the JavaScript string methods the script calls. *)

From Stdlib Require Import String Ascii List Bool Arith Lia.
Import ListNotations.
Open Scope list_scope.
Open Scope string_scope.

Set Warnings "-register-all".

(** ** JavaScript strings *)

Module JS.

(** [s.startsWith(String c "")] *)
Definition startsWithChar (c : ascii) (s : string) : bool :=
  match s with
  | EmptyString => false
  | String a _ => Ascii.eqb a c
  end.

(** [s.startsWith('.')] *)
Definition startsWithDot : string -> bool := startsWithChar ".".

(** [s.startsWith(p)] *)
Definition startsWith (p s : string) : bool := String.prefix p s.

(** [s.endsWith(p)] *)
Fixpoint endsWith (p s : string) : bool :=
  if String.eqb p s then true
  else match s with
       | EmptyString => false
       | String _ rest => endsWith p rest
       end.

(** [s.includes(p)] *)
Fixpoint includes (p s : string) : bool :=
  if String.prefix p s then true
  else match s with
       | EmptyString => false
       | String _ rest => includes p rest
       end.

(** [s.replace(pat, rep)] with a string pattern: only the first
    occurrence of [pat] is replaced. *)
Fixpoint replace (pat rep s : string) : string :=
  if String.prefix pat s
  then rep ++ String.substring (String.length pat)
                               (String.length s - String.length pat) s
  else match s with
       | EmptyString => EmptyString
       | String c rest => String c (replace pat rep rest)
       end.

(** [s.replace(/^([^\.])/, './$1')]: a first character other than a dot
    gets [./] in front of it; the empty string has no first character. *)
Definition replaceLeadingNonDot (s : string) : string :=
  match s with
  | EmptyString => EmptyString
  | String c _ => if Ascii.eqb c "." then s else "./" ++ s
  end.

(** [xs.includes(x)] on an array of strings *)
Definition arrayIncludes (xs : list string) (x : string) : bool :=
  existsb (String.eqb x) xs.

End JS.

(** ** Node's [path.posix] *)

Module Path.

Definition isSlash (c : ascii) : bool := Ascii.eqb c "/".

(** The segments between the separators, empty ones included. *)
Fixpoint split (s : string) : list string :=
  match s with
  | EmptyString => [EmptyString]
  | String c rest =>
      if isSlash c then EmptyString :: split rest
      else match split rest with
           | [] => [String c EmptyString]
           | seg :: segs => String c seg :: segs
           end
  end.

(** The segments put together again, one separator between two. *)
Fixpoint unsplit (l : list string) : string :=
  match l with
  | [] => EmptyString
  | [x] => x
  | x :: xs => x ++ "/" ++ unsplit xs
  end.

(** One step of [normalizeString]: the stack of segments kept so far
    (the last one first) and the next segment. *)
Definition normStep (allowAboveRoot : bool) (stack : list string)
           (seg : string) : list string :=
  if String.eqb seg "" then stack
  else if String.eqb seg "." then stack
  else if String.eqb seg ".." then
    match stack with
    | top :: below =>
        if String.eqb top ".."
        then (if allowAboveRoot then ".." :: stack else stack)
        else below
    | [] => if allowAboveRoot then [".."] else []
    end
  else seg :: stack.

Definition normSegments (allowAboveRoot : bool) (segs : list string)
  : list string :=
  rev (fold_left (normStep allowAboveRoot) segs []).

(** [normalizeString(path, allowAboveRoot, '/', isPosixPathSeparator)] *)
Definition normalizeString (path : string) (allowAboveRoot : bool) : string :=
  unsplit (normSegments allowAboveRoot (split path)).

Definition isAbsolute (p : string) : bool := JS.startsWithChar "/" p.

(** The loop of [resolve], from the last argument to the first and then
    the working directory, until an absolute path is reached. *)
Fixpoint gather (rargs : list string) (acc : string) : string * bool :=
  match rargs with
  | [] => (acc, false)
  | p :: rest =>
      if String.eqb p "" then gather rest acc
      else
        let acc' := p ++ "/" ++ acc in
        if isAbsolute p then (acc', true) else gather rest acc'
  end.

(** [path.resolve(...args)], the working directory made explicit. *)
Definition resolve (cwd : string) (args : list string) : string :=
  let '(resolvedPath, resolvedAbsolute) := gather (rev args ++ [cwd])%list "" in
  let r := normalizeString resolvedPath (negb resolvedAbsolute) in
  if resolvedAbsolute then "/" ++ r
  else if String.eqb r "" then "." else r.

(** [path.normalize(path)] *)
Definition normalize (path : string) : string :=
  if String.eqb path "" then "."
  else
    let abs := isAbsolute path in
    let trailingSeparator := JS.endsWith "/" path in
    let r := normalizeString path (negb abs) in
    if String.eqb r "" then
      (if abs then "/" else if trailingSeparator then "./" else ".")
    else
      let r' := if trailingSeparator then r ++ "/" else r in
      if abs then "/" ++ r' else r'.

(** [path.join(...args)] *)
Definition join (args : list string) : string :=
  match filter (fun a => negb (String.eqb a "")) args with
  | [] => "."
  | parts => normalize (unsplit parts)
  end.

(** The non-empty segments of a path. *)
Definition segments (p : string) : list string :=
  filter (fun s => negb (String.eqb s "")) (split p).

(** How many leading segments two paths share. *)
Fixpoint common (a b : list string) : nat :=
  match a, b with
  | x :: a', y :: b' => if String.eqb x y then S (common a' b') else 0
  | _, _ => 0
  end.

(** [path.relative(from, to)]: both are resolved against the working
    directory, then one [..] for each segment of [from] below the shared
    prefix, then what is left of [to]. *)
Definition relative (cwd from to : string) : string :=
  let f := segments (resolve cwd [from]) in
  let t := segments (resolve cwd [to]) in
  let c := common f t in
  unsplit (repeat ".." (List.length f - c) ++ skipn c t)%list.

(** The two scans of [dirname] over the characters from the last one
    down to the second: past the trailing separators, then past the
    last segment. *)
Fixpoint dropSlashes (l : list ascii) : list ascii :=
  match l with
  | c :: l' => if isSlash c then dropSlashes l' else l
  | [] => []
  end.

Fixpoint dropName (l : list ascii) : list ascii :=
  match l with
  | c :: l' => if isSlash c then l else dropName l'
  | [] => []
  end.

(** [path.dirname(path)] *)
Definition dirname (path : string) : string :=
  match path with
  | EmptyString => "."
  | String c0 rest =>
      let hasRoot := isSlash c0 in
      match dropName (dropSlashes (rev (list_ascii_of_string rest))) with
      | [] => if hasRoot then "/" else "."
      | _ :: before =>
          if hasRoot && Nat.eqb (List.length before) 0 then "//"
          else String c0 (string_of_list_ascii (rev before))
      end
  end.

(** A segment: a string with no separator in it. *)
Definition noSlash (s : string) : Prop := split s = [s].

(** A segment that [normalizeString] keeps as it is. *)
Definition clean (s : string) : Prop := s <> "" /\ s <> "." /\ s <> "..".

(** The segments of an absolute path once it is resolved. *)
Definition absSegments (p : string) : list string :=
  normSegments false (split p).

(** The last segment with an extension added to it. *)
Fixpoint appendLast (l : list string) (s : string) : list string :=
  match l with
  | [] => [s]
  | [x] => [x ++ s]
  | x :: r => x :: appendLast r s
  end.

End Path.


(** ** Thrown values and results *)

Inductive Thrown : Type :=
| Error (message : string)          (* [throw new Error(message)] *)
| TypeError (message : string)      (* raised by the runtime *)
| SystemError (code path : string). (* a failed call of [fs] *)

Inductive Result (A : Type) : Type :=
| Ok (a : A)
| Throw (t : Thrown).

Arguments Ok {A} a.
Arguments Throw {A} t.

Definition bind {A B : Type} (r : Result A) (k : A -> Result B) : Result B :=
  match r with
  | Ok a => k a
  | Throw t => Throw t
  end.

Notation "x <- r ;; k" := (bind r (fun x => k))
  (at level 61, r at next level, right associativity).

(** [await Promise.all(xs.map(f))] for an [f] that only reads: every result
    in the order of [xs], or a rejection when one of them rejects (here the
    first one in the order of [xs]). *)
Definition mapM {A B : Type} (f : A -> Result B) : list A -> Result (list B) :=
  fix go (l : list A) : Result (list B) :=
    match l with
    | [] => Ok []
    | x :: rest =>
        match f x with
        | Throw t => Throw t
        | Ok y => match go rest with
                  | Throw t => Throw t
                  | Ok ys => Ok (y :: ys)
                  end
        end
    end.

Definition isThrow {A : Type} (r : Result A) : bool :=
  match r with Throw _ => true | Ok _ => false end.

(** The first value stored under a key, for the listing of a directory and
    for the own properties of an object literal. *)
Fixpoint assoc {A : Type} (k : string) (l : list (string * A)) : option A :=
  match l with
  | [] => None
  | (k', v) :: rest => if String.eqb k k' then Some v else assoc k rest
  end.

(** ** The file system *)

Module Fs.

Inductive Entry : Type :=
| File (content : string)
| Dir (entries : list (string * Entry)).

Fixpoint assoc {A : Type} (k : string) (l : list (string * A)) : option A :=
  match l with
  | [] => None
  | (k', v) :: rest => if String.eqb k k' then Some v else assoc k rest
  end.

(** The entry a list of segments leads to, from the root. *)
Fixpoint lookup (e : Entry) (segs : list string) {struct segs} : option Entry :=
  match segs with
  | [] => Some e
  | s :: rest =>
      match e with
      | File _ => None
      | Dir es => match assoc s es with
                  | Some child => lookup child rest
                  | None => None
                  end
      end
  end.

(** The entry at a path, resolved against the working directory. *)
Definition stat (root : Entry) (cwd p : string) : option Entry :=
  lookup root (Path.segments (Path.resolve cwd [p])).

(** [existsSync(p)] *)
Definition existsSync (root : Entry) (cwd p : string) : bool :=
  match stat root cwd p with Some _ => true | None => false end.

(** [existsSync(p) && statSync(p).isDirectory()] *)
Definition isDirectory (root : Entry) (cwd p : string) : bool :=
  match stat root cwd p with Some (Dir _) => true | _ => false end.

Definition isFile (root : Entry) (cwd p : string) : bool :=
  match stat root cwd p with Some (File _) => true | _ => false end.

(** [fs.readdir(p, { withFileTypes: true })]: the entries in listing
    order. *)
Definition readdirEntries (root : Entry) (cwd p : string)
  : Result (list (string * Entry)) :=
  match stat root cwd p with
  | Some (Dir es) => Ok es
  | Some (File _) => Throw (SystemError "ENOTDIR" p)
  | None => Throw (SystemError "ENOENT" p)
  end.

(** [fs.readdir(p)]: the names only. *)
Definition readdir (root : Entry) (cwd p : string) : Result (list string) :=
  es <- readdirEntries root cwd p ;; Ok (map fst es).

(** [fs.readFile(p)] *)
Definition readFile (root : Entry) (cwd p : string) : Result string :=
  match stat root cwd p with
  | Some (File c) => Ok c
  | Some (Dir _) => Throw (SystemError "EISDIR" p)
  | None => Throw (SystemError "ENOENT" p)
  end.

(** What is left of the tree when the entry at [segs] is removed. *)
Fixpoint remove (e : Entry) (segs : list string) {struct segs} : Entry :=
  match segs with
  | [] => e
  | s :: rest =>
      match e with
      | File _ => e
      | Dir es =>
          match rest with
          | [] => Dir (filter (fun ne => negb (String.eqb (fst ne) s)) es)
          | _ :: _ =>
              Dir (map (fun ne => if String.eqb (fst ne) s
                                  then (fst ne, remove (snd ne) rest)
                                  else ne) es)
          end
      end
  end.

(** [fs.rm(p, { recursive: true, force: true })] *)
Definition rm (root : Entry) (cwd p : string) : Entry :=
  remove root (Path.segments (Path.resolve cwd [p])).

End Fs.

(** ** The syntax trees of the TypeScript compiler *)

Module Ts.

(** A part of a declaration the script hands on as it is. *)
Definition Syntax := string.

Inductive Expression : Type :=
| StringLiteral (text : string) (isSingleQuote : bool)
| NoSubstitutionTemplateLiteral (text : string)
| OtherExpression (source : Syntax).

Inductive Node : Type :=
| ImportDeclaration (decorators modifiers importClause : option Syntax)
                    (moduleSpecifier : Expression)
                    (assertClause : option Syntax)
| ExportDeclaration (decorators modifiers : option Syntax)
                    (isTypeOnly : bool)
                    (exportClause : option Syntax)
                    (moduleSpecifier : option Expression)
                    (assertClause : option Syntax)
| OtherNode (kind : string) (text : Syntax) (children : list Node).

Record SourceFile : Type := { fileName : string; root : Node }.

(** [node.assertClause] *)
Definition assertClauseOf (node : Node) : option Syntax :=
  match node with
  | ImportDeclaration _ _ _ _ assertClause => assertClause
  | ExportDeclaration _ _ _ _ _ assertClause => assertClause
  | OtherNode _ _ _ => None
  end.

(** [ts.isStringLiteralLike(e)], with [e.text] *)
Definition stringLiteralLikeText (e : Expression) : option string :=
  match e with
  | StringLiteral text _ => Some text
  | NoSubstitutionTemplateLiteral text => Some text
  | OtherExpression _ => None
  end.

(** [ts.factory.createStringLiteral(text, true)] *)
Definition createStringLiteral (text : string) (isSingleQuote : bool)
  : Expression := StringLiteral text isSingleQuote.

End Ts.

(** ** The build script *)

Definition excludedPackages : list string :=
  ["converter"; "deno"; "plugin-example"; "plugin-prisma";
   "plugin-prisma-crud"; "test-utils"; "plugin-federation"].

Definition excludedDirs : list string :=
  ["esm"; "lib"; "test"; "tests"; "node_modules"].

Definition excludedFiles : list string :=
  ["package.json"; "tsconfig.json"; "tsconfig.tsbuildinfo"; "CHANGELOG.md";
   ".npmignore"; "babel.config.js"].

(** The own properties of the object literal [moduleMap]. *)
Definition moduleMap : list (string * string) :=
  [("graphql", "https://cdn.skypack.dev/graphql?dts");
   ("zod", "https://cdn.skypack.dev/zod@v1.11.17?dts");
   ("dataloader", "https://cdn.skypack.dev/dataloader?dts");
   ("@pothos/core", "./core/index.ts");
   ("@pothos/plugin-directives", "./plugin-directives/index.ts");
   ("graphql/execution/values",
    "https://cdn.skypack.dev/graphql/execution/values?dts")].

(** What [moduleMap[key]] evaluates to: [moduleMap] is an object literal,
    so a key it does not own is looked up in [Object.prototype], whose
    members are functions and, for [__proto__], an object. *)
Inductive JSValue : Type :=
| JSUndefined
| JSString (s : string)
| JSObject.

Definition objectPrototypeKeys : list string :=
  ["constructor"; "hasOwnProperty"; "isPrototypeOf"; "propertyIsEnumerable";
   "toLocaleString"; "toString"; "valueOf"; "__proto__";
   "__defineGetter__"; "__defineSetter__"; "__lookupGetter__";
   "__lookupSetter__"].

Definition moduleMapGet (key : string) : JSValue :=
  match assoc key moduleMap with
  | Some v => JSString v
  | None => if JS.arrayIncludes objectPrototypeKeys key then JSObject
            else JSUndefined
  end.

(** The truth value of a condition [if (v)]. *)
Definition truthy (v : JSValue) : bool :=
  match v with
  | JSUndefined => false
  | JSString s => negb (String.eqb s "")
  | JSObject => true
  end.

Definition newline : string := String (Ascii.ascii_of_nat 10) EmptyString.

Definition modFile : string :=
  "import Default from './index.ts';" ++ newline ++
  "export * from './index.ts';" ++ newline ++
  "export default Default;" ++ newline.

Record LoadedFile : Type := { path : string; content : string }.

(** What a run does to the output side of the file system. *)
Inductive Effect : Type :=
| RmEffect (target : string)
| MkdirEffect (dir : string)
| WriteFileEffect (file data : string).

Section Script.

(** The directory of the script, the working directory of the process,
    and the parser and printer of the TypeScript compiler. *)
Variable __dirname : string.
Variable cwd : string.
Variable createSourceFile : string -> string -> Ts.Node.
Variable printFile : Ts.Node -> string.

Definition packageDir : string := Path.resolve cwd [__dirname; "../../"].
Definition targetDir : string := Path.resolve cwd [__dirname; "../packages"].

(** The filter of [getFiles] on the name of an entry. *)
Definition keepEntry (root : bool) (name : string) : bool :=
  negb (JS.arrayIncludes excludedFiles name)
  && (negb root || negb (JS.arrayIncludes excludedDirs name)).

(** The callback of [results.map] in [getFiles], for an entry of a
    directory below the package root: a directory is listed in turn. *)
Fixpoint getFilesEntry (fullPath : string) (entry : Fs.Entry) : list string :=
  match entry with
  | Fs.File _ => [fullPath]
  | Fs.Dir es =>
      flat_map (fun ne =>
                  if keepEntry false (fst ne)
                  then getFilesEntry (Path.join [fullPath; fst ne]) (snd ne)
                  else [])
               es
  end.

Definition getFiles (fs : Fs.Entry) (dir : string) (root : bool)
  : Result (list string) :=
  results <- Fs.readdirEntries fs cwd dir ;;
  Ok (flat_map (fun ne => getFilesEntry (Path.join [dir; fst ne]) (snd ne))
               (filter (fun ne => keepEntry root (fst ne)) results)).

Definition getPackages (fs : Fs.Entry) : Result (list string) :=
  entries <- Fs.readdir fs cwd packageDir ;;
  Ok (filter (fun entry => negb (JS.arrayIncludes excludedPackages entry))
             entries).

(** The body of the visitor of [importTransformer] between reading the
    specifier and building the new declaration: the new text of the
    module specifier of a declaration of the file [fileName]; [mod']
    is the variable [mod] of the source. *)
Definition rewriteSpecifier (fs : Fs.Entry) (fileName mod' : string)
  : Result string :=
  let dirName := Path.dirname fileName in
  if JS.startsWithDot mod' then
    let modulePath := Path.resolve cwd [dirName; mod'] in
    let tsPath := modulePath ++ ".ts" in
    let dtsPath := modulePath ++ ".d.ts" in
    target <-
      (if Fs.isDirectory fs cwd modulePath
       then Ok (Path.join [modulePath; "index.ts"])
       else if Fs.existsSync fs cwd tsPath then Ok tsPath
       else if Fs.existsSync fs cwd dtsPath then Ok dtsPath
       else if negb (Fs.existsSync fs cwd modulePath)
            then Throw (Error ("Unable to resolve modulePath " ++ modulePath))
            else Ok mod') ;;
    Ok (JS.replaceLeadingNonDot (Path.relative cwd dirName target))
  else if truthy (moduleMapGet mod') then
    match moduleMapGet mod' with
    | JSString newMod =>
        if JS.startsWithDot newMod
        then Ok (Path.relative cwd (JS.replace "/src" "" dirName)
                               (Path.resolve cwd [packageDir; newMod]))
        else Ok newMod
    | _ => Throw (TypeError "newMod.startsWith is not a function")
    end
  else Throw (Error ("Unknown module " ++ mod' ++ " in " ++ fileName)).

(** The visitor of [importTransformer].  A declaration whose specifier is
    not a string literal goes to [ts.visitEachChild] like any other node;
    its parts hold no declaration, so it comes back as it is. *)
Fixpoint visitor (fs : Fs.Entry) (fileName : string) (node : Ts.Node)
  : Result Ts.Node :=
  match node with
  | Ts.ImportDeclaration decorators modifiers importClause moduleSpecifier _ =>
      match Ts.stringLiteralLikeText moduleSpecifier with
      | Some text =>
          mod' <- rewriteSpecifier fs fileName text ;;
          Ok (Ts.ImportDeclaration decorators modifiers importClause
                (Ts.createStringLiteral mod' true) None)
      | None => Ok node
      end
  | Ts.ExportDeclaration decorators modifiers isTypeOnly exportClause
                         (Some moduleSpecifier) _ =>
      match Ts.stringLiteralLikeText moduleSpecifier with
      | Some text =>
          mod' <- rewriteSpecifier fs fileName text ;;
          Ok (Ts.ExportDeclaration decorators modifiers isTypeOnly exportClause
                (Some (Ts.createStringLiteral mod' true)) None)
      | None => Ok node
      end
  | Ts.ExportDeclaration _ _ _ _ None _ => Ok node
  | Ts.OtherNode kind text children =>
      children' <- mapM (visitor fs fileName) children ;;
      Ok (Ts.OtherNode kind text children')
  end.

(** [ts.transform(source, [importTransformer]).transformed[0]] *)
Definition importTransformer (fs : Fs.Entry) (sourceFile : Ts.SourceFile)
  : Result Ts.SourceFile :=
  root' <- visitor fs (Ts.fileName sourceFile) (Ts.root sourceFile) ;;
  Ok {| Ts.fileName := Ts.fileName sourceFile; Ts.root := root' |}.

(** The constant [newPath] of [loadFile]. *)
Definition loadFile_newPath (file : string) : string :=
  JS.replace "/src" ""
    (Path.resolve cwd [targetDir; Path.relative cwd packageDir file]).

Definition loadFile (fs : Fs.Entry) (file : string) : Result LoadedFile :=
  let newPath := loadFile_newPath file in
  if JS.endsWith ".ts" file then
    text <- Fs.readFile fs cwd file ;;
    let source := {| Ts.fileName := file;
                     Ts.root := createSourceFile file text |} in
    result <- importTransformer fs source ;;
    Ok {| path := newPath;
          content := "// @ts-nocheck" ++ newline ++ printFile (Ts.root result) |}
  else
    data <- Fs.readFile fs cwd file ;;
    Ok {| path := newPath; content := data |}.

Definition getAllFiles (fs : Fs.Entry) : Result (list LoadedFile) :=
  projects <- getPackages fs ;;
  results <- mapM (fun dir => getFiles fs (Path.join [packageDir; dir]) true)
                  projects ;;
  let files := concat results in
  let modFiles :=
    map (fun dir => {| path := Path.join [targetDir; dir; "mod.ts"];
                       content := modFile |}) projects in
  loaded <- mapM (loadFile fs) files ;;
  Ok (loaded ++ modFiles)%list.

(** The effects of one file of the write phase of [build]. *)
Definition writeEffects (file : LoadedFile) : list Effect :=
  [MkdirEffect (Path.dirname (path file));
   WriteFileEffect (path file) (content file)].

(** [build()]: the effects on the output side, in the order they are
    issued, and how the run ends. *)
Definition build (fs : Fs.Entry) : list Effect * Result unit :=
  let fs' := Fs.rm fs cwd targetDir in
  match getAllFiles fs' with
  | Throw t => ([RmEffect targetDir], Throw t)
  | Ok files => (RmEffect targetDir :: flat_map writeEffects files, Ok tt)
  end.

End Script.

(** ** Notions the statements below use *)

(** A rewritten specifier [r] leads, from the directory [dirName], to the
    path [target]. *)
Definition pointsAt (cwd dirName : string) (r : Result string) (target : string)
  : Prop :=
  exists e, r = Ok e /\ Path.resolve cwd [dirName; e] = target.

Definition isSome {A : Type} (o : option A) : bool :=
  match o with Some _ => true | None => false end.

(** Is there, in a tree, a declaration whose specifier the visitor
    rewrites: an import or export declaration with a string literal as its
    module specifier. *)
Fixpoint hasSpecifier (node : Ts.Node) : bool :=
  match node with
  | Ts.ImportDeclaration _ _ _ moduleSpecifier _ =>
      isSome (Ts.stringLiteralLikeText moduleSpecifier)
  | Ts.ExportDeclaration _ _ _ _ (Some moduleSpecifier) _ =>
      isSome (Ts.stringLiteralLikeText moduleSpecifier)
  | Ts.ExportDeclaration _ _ _ _ None _ => false
  | Ts.OtherNode _ _ children => existsb hasSpecifier children
  end.

(** The files [getAllFiles] hands to [loadFile]. *)
Definition enumerated (__dirname cwd : string) (fs : Fs.Entry) (file : string)
  : Prop :=
  exists projects results,
    getPackages __dirname cwd fs = Ok projects
    /\ mapM (fun dir => getFiles cwd fs (Path.join [packageDir __dirname cwd; dir]) true)
            projects = Ok results
    /\ In file (concat results).

(** A tree used in the examples: the repository with a package [core], the
    excluded package [deno] that holds the script and an earlier output,
    and a file next to the packages. *)
Definition sampleDirname : string := "/repo/packages/deno/scripts".
Definition sampleCwd : string := "/repo/packages/deno".

Definition sampleFs : Fs.Entry :=
  Fs.Dir
    [("repo", Fs.Dir
      [("packages", Fs.Dir
        [("core", Fs.Dir
           [("package.json", Fs.File "{}");
            ("src", Fs.Dir
               [("index.ts", Fs.File "./util");
                ("util.ts", Fs.File "graphql");
                ("util.d.ts", Fs.File "graphql");
                ("helpers", Fs.Dir [("index.ts", Fs.File "../util")]);
                ("helpers.ts", Fs.File "./util");
                ("types.d.ts", Fs.File "zod");
                ("schema.json", Fs.File "{}")]);
            ("lib", Fs.Dir [("index.js", Fs.File "")])]);
         ("deno", Fs.Dir
           [("scripts", Fs.Dir [("build.ts", Fs.File "")]);
            ("packages", Fs.Dir [("stale.ts", Fs.File "")])]);
         ("README.md", Fs.File "")])])].

(** The same tree with directories only below the source root. *)
Definition sampleFsDirs : Fs.Entry :=
  Fs.remove sampleFs ["repo"; "packages"; "README.md"].

(** A tree in which a source file imports a package the table does not
    know. *)
Definition sampleFsUnknown : Fs.Entry :=
  Fs.Dir
    [("repo", Fs.Dir
      [("packages", Fs.Dir
        [("core", Fs.Dir
           [("src", Fs.Dir
               [("index.ts", Fs.File "./util");
                ("util.ts", Fs.File "left-pad")])]);
         ("deno", Fs.Dir
           [("scripts", Fs.Dir [("build.ts", Fs.File "")]);
            ("packages", Fs.Dir [("stale.ts", Fs.File "")])])])])].

(** A stand-in for the parser: the text of a file is read as the module
    specifier of one import declaration. *)
Definition sampleParser (_ text : string) : Ts.Node :=
  Ts.OtherNode "SourceFile" ""
    [Ts.ImportDeclaration None None (Some "x") (Ts.StringLiteral text false) None].

(** A stand-in for the printer: the specifiers of the declarations. *)
Fixpoint samplePrinter (node : Ts.Node) : string :=
  match node with
  | Ts.ImportDeclaration _ _ _ (Ts.StringLiteral text _) _ => text
  | Ts.ExportDeclaration _ _ _ _ (Some (Ts.StringLiteral text _)) _ => text
  | Ts.OtherNode _ _ children => String.concat ";" (map samplePrinter children)
  | _ => ""
  end.

(** ** Notions for the further properties *)

Definition isOk {A : Type} (r : Result A) : bool :=
  match r with Ok _ => true | Throw _ => false end.

(** A name a file system gives to an entry: not empty, not [.] or [..],
    and with no separator in it. *)
Definition nameOk (name : string) : bool :=
  negb (String.eqb name "") && negb (String.eqb name ".")
  && negb (String.eqb name "..")
  && forallb (fun c => negb (Path.isSlash c)) (list_ascii_of_string name).

Fixpoint uniqueNames (names : list string) : bool :=
  match names with
  | [] => true
  | name :: rest => negb (existsb (String.eqb name) rest) && uniqueNames rest
  end.

(** A tree as a file system holds it: in every directory the names are
    proper names and no two entries share one. *)
Fixpoint wellFormed (entry : Fs.Entry) : bool :=
  match entry with
  | Fs.File _ => true
  | Fs.Dir es =>
      uniqueNames (map fst es)
      && forallb (fun ne => nameOk (fst ne) && wellFormed (snd ne)) es
  end.

(** The texts of the specifiers the visitor rewrites in a tree, in the
    order it meets them. *)
Fixpoint specifiers (node : Ts.Node) : list string :=
  match node with
  | Ts.ImportDeclaration _ _ _ moduleSpecifier _ =>
      match Ts.stringLiteralLikeText moduleSpecifier with
      | Some text => [text]
      | None => []
      end
  | Ts.ExportDeclaration _ _ _ _ (Some moduleSpecifier) _ =>
      match Ts.stringLiteralLikeText moduleSpecifier with
      | Some text => [text]
      | None => []
      end
  | Ts.ExportDeclaration _ _ _ _ None _ => []
  | Ts.OtherNode _ _ children => flat_map specifiers children
  end.

(** A tree with the two things the visitor touches blanked: the specifier
    and the assert clause of every declaration whose specifier is a string
    literal. *)
Fixpoint eraseSpecifiers (node : Ts.Node) : Ts.Node :=
  match node with
  | Ts.ImportDeclaration d m ic moduleSpecifier ac =>
      match Ts.stringLiteralLikeText moduleSpecifier with
      | Some _ => Ts.ImportDeclaration d m ic (Ts.StringLiteral "" true) None
      | None => node
      end
  | Ts.ExportDeclaration d m ty ec (Some moduleSpecifier) ac =>
      match Ts.stringLiteralLikeText moduleSpecifier with
      | Some _ =>
          Ts.ExportDeclaration d m ty ec (Some (Ts.StringLiteral "" true)) None
      | None => node
      end
  | Ts.ExportDeclaration _ _ _ _ None _ => node
  | Ts.OtherNode kind text children =>
      Ts.OtherNode kind text (map eraseSpecifiers children)
  end.

(** The companion module [getAllFiles] adds for a package. *)
Definition companionModule (__dirname cwd dir : string) : LoadedFile :=
  {| path := Path.join [targetDir __dirname cwd; dir; "mod.ts"];
     content := modFile |}.

(** A small well-formed tree: one package with sources below [src], a
    manifest, and a build directory at its root. *)
Definition sampleFsSmall : Fs.Entry :=
  Fs.Dir
    [("repo", Fs.Dir
      [("packages", Fs.Dir
        [("core", Fs.Dir
           [("package.json", Fs.File "{}");
            ("lib", Fs.Dir [("index.js", Fs.File "")]);
            ("src", Fs.Dir
               [("index.ts", Fs.File "./util");
                ("util.ts", Fs.File "graphql");
                ("data.json", Fs.File "{}")])])])])].

(** A name the filter of [getFiles] lets through at every depth. *)
Definition notExcludedFile (name : string) : Prop :=
  JS.arrayIncludes excludedFiles name = false.

(** The first of the names that lead to a file is not one of the
    directories left out at the root of a package. *)
Definition startsOutsideExcludedDirs (names : list string) : Prop :=
  exists first rest,
    names = first :: rest /\ JS.arrayIncludes excludedDirs first = false.

(** * Properties *)

(** ** Splitting and joining paths *)

Module PathFacts.

Import Path.

Lemma split_nonempty (s : string) : split s <> [].
Proof.
  destruct s as [|c rest]; simpl; [discriminate|].
  destruct (isSlash c); [discriminate|].
  destruct (split rest); discriminate.
Qed.

Lemma append_nil_r (s : string) : s ++ "" = s.
Proof. induction s as [|c s IH]; simpl; [reflexivity|now rewrite IH]. Qed.

Lemma append_assoc (a b c : string) : (a ++ b) ++ c = a ++ b ++ c.
Proof. induction a as [|x a IH]; simpl; [reflexivity|now rewrite IH]. Qed.

Lemma length_append (a b : string) :
  String.length (a ++ b) = String.length a + String.length b.
Proof. induction a as [|x a IH]; simpl; [reflexivity|now rewrite IH]. Qed.

Lemma split_app_slash (a b : string) :
  split (a ++ String "/" b) = (split a ++ split b)%list.
Proof.
  induction a as [|c a IH]; simpl; [reflexivity|].
  destruct (isSlash c); [now rewrite IH|].
  rewrite IH. pose proof (split_nonempty a) as Hne.
  destruct (split a); [contradiction|reflexivity].
Qed.

Lemma noSlash_cons_inv (c : ascii) (s : string) :
  noSlash (String c s) -> isSlash c = false /\ noSlash s.
Proof.
  unfold noSlash; simpl. destruct (isSlash c); [discriminate|].
  intros H. split; [reflexivity|].
  pose proof (split_nonempty s) as Hne.
  destruct (split s) as [|seg segs]; [contradiction|].
  injection H as H1 H2. now subst.
Qed.

Lemma noSlash_cons (c : ascii) (s : string) :
  isSlash c = false -> noSlash s -> noSlash (String c s).
Proof. unfold noSlash; simpl; intros -> ->; reflexivity. Qed.

Lemma noSlash_app (a b : string) : noSlash a -> noSlash b -> noSlash (a ++ b).
Proof.
  induction a as [|c a IH]; simpl; intros Ha Hb; [assumption|].
  apply noSlash_cons_inv in Ha as [Hc Ha]. apply noSlash_cons; auto.
Qed.

Lemma split_noSlash (s : string) : Forall noSlash (split s).
Proof.
  induction s as [|c s IH]; simpl.
  - repeat constructor.
  - destruct (isSlash c) eqn:Hc.
    + constructor; [reflexivity|assumption].
    + destruct (split s) as [|seg segs]; [repeat constructor; now apply noSlash_cons|].
      inversion IH; subst. constructor; [now apply noSlash_cons|assumption].
Qed.

Lemma split_unsplit (l : list string) :
  l <> [] -> Forall noSlash l -> split (unsplit l) = l.
Proof.
  induction l as [|x [|y r] IH]; intros Hne Hl; [contradiction| |].
  - inversion Hl; subst; assumption.
  - inversion Hl as [|? ? Hx Hr]; subst.
    change (unsplit (x :: y :: r)) with (x ++ String "/" (unsplit (y :: r))).
    rewrite split_app_slash, Hx, IH; [reflexivity|discriminate|assumption].
Qed.

Lemma noSlash_head (s : string) :
  noSlash s -> s <> "" -> isAbsolute s = false.
Proof.
  destruct s as [|c s]; [contradiction|].
  intros H _. apply noSlash_cons_inv in H as [Hc _]. exact Hc.
Qed.

Lemma unsplit_head (x : string) (l : list string) :
  exists rest, unsplit (x :: l) = x ++ rest.
Proof.
  destruct l as [|y r]; [exists ""; simpl; now rewrite append_nil_r|].
  now exists ("/" ++ unsplit (y :: r)).
Qed.


(** *** Normalising segments *)

Lemma normStep_clean (a : bool) (stack : list string) (seg : string) :
  clean seg -> normStep a stack seg = seg :: stack.
Proof.
  intros (H1 & H2 & H3). unfold normStep.
  apply String.eqb_neq in H1, H2, H3. now rewrite H1, H2, H3.
Qed.

Lemma normStep_pop (top : string) (below : list string) :
  top <> ".." -> normStep false (top :: below) ".." = below.
Proof.
  intros H. apply String.eqb_neq in H. unfold normStep. simpl.
  now rewrite H.
Qed.

Lemma fold_clean (a : bool) (l acc : list string) :
  Forall clean l -> fold_left (normStep a) l acc = (rev l ++ acc)%list.
Proof.
  revert acc. induction l as [|x l IH]; simpl; intros acc H; [reflexivity|].
  inversion H; subst. rewrite normStep_clean, IH by assumption.
  now rewrite <- app_assoc.
Qed.

Lemma fold_pops (S Y : list string) :
  Forall clean S ->
  fold_left (normStep false) (repeat ".." (List.length S)) (S ++ Y)%list = Y.
Proof.
  induction S as [|x S IH]; intros H; [reflexivity|].
  inversion H as [|? ? (_ & _ & Hx) HS]; subst.
  cbn [List.length repeat fold_left app]. rewrite normStep_pop by assumption.
  now apply IH.
Qed.

Lemma normStep_keeps (P : string -> Prop) (stack : list string) (seg : string) :
  Forall P stack -> P seg -> Forall P (normStep false stack seg).
Proof.
  intros Hs Hseg. unfold normStep.
  destruct (String.eqb seg ""); [assumption|].
  destruct (String.eqb seg "."); [assumption|].
  destruct (String.eqb seg "..").
  - destruct stack as [|top below]; [constructor|].
    destruct (String.eqb top ".."); [assumption|now inversion Hs].
  - now constructor.
Qed.

Lemma fold_keeps (P : string -> Prop) (l acc : list string) :
  Forall P acc -> Forall P l -> Forall P (fold_left (normStep false) l acc).
Proof.
  revert acc. induction l as [|x l IH]; simpl; intros acc Ha Hl; [assumption|].
  inversion Hl; subst. apply IH; [now apply normStep_keeps|assumption].
Qed.

Lemma normStep_stays_clean (stack : list string) (seg : string) :
  Forall clean stack -> Forall clean (normStep false stack seg).
Proof.
  intros Hs. unfold normStep.
  destruct (String.eqb_spec seg ""); [assumption|].
  destruct (String.eqb_spec seg "."); [assumption|].
  destruct (String.eqb_spec seg "..").
  - destruct stack as [|top below]; [constructor|].
    destruct (String.eqb top ".."); [assumption|now inversion Hs].
  - constructor; [now repeat split|assumption].
Qed.

Lemma fold_stays_clean (l acc : list string) :
  Forall clean acc -> Forall clean (fold_left (normStep false) l acc).
Proof.
  revert acc. induction l as [|x l IH]; simpl; intros acc Ha; [assumption|].
  apply IH. now apply normStep_stays_clean.
Qed.

Lemma absSegments_clean (p : string) : Forall clean (absSegments p).
Proof. apply Forall_rev, fold_stays_clean. constructor. Qed.

Lemma absSegments_noSlash (p : string) : Forall noSlash (absSegments p).
Proof. apply Forall_rev, fold_keeps; [constructor|apply split_noSlash]. Qed.

Lemma Forall_skipn {A : Type} (P : A -> Prop) (n : nat) (l : list A) :
  Forall P l -> Forall P (skipn n l).
Proof.
  intros H. rewrite <- (firstn_skipn n l) in H.
  now apply Forall_app in H.
Qed.

Lemma common_le_l (a b : list string) : common a b <= List.length a.
Proof.
  revert b. induction a as [|x a IH]; intros [|y b]; simpl; try lia.
  destruct (String.eqb x y); [specialize (IH b)|]; lia.
Qed.

Lemma common_le_r (a b : list string) : common a b <= List.length b.
Proof.
  revert b. induction a as [|x a IH]; intros [|y b]; simpl; try lia.
  destruct (String.eqb x y); [specialize (IH b)|]; lia.
Qed.

Lemma common_firstn (a b : list string) :
  firstn (common a b) a = firstn (common a b) b.
Proof.
  revert b. induction a as [|x a IH]; intros [|y b]; simpl; try reflexivity.
  destruct (String.eqb_spec x y); [|reflexivity].
  subst. simpl. now rewrite IH.
Qed.

(** *** [resolve] on absolute paths *)

Lemma gather_abs (d : string) (rest : list string) (acc : string) :
  isAbsolute d = true -> gather (d :: rest) acc = (d ++ String "/" acc, true).
Proof.
  intros H. simpl. rewrite H.
  destruct d; [discriminate|reflexivity].
Qed.

Lemma gather_rel (e : string) (rest : list string) (acc : string) :
  e <> "" -> isAbsolute e = false ->
  gather (e :: rest) acc = gather rest (e ++ String "/" acc).
Proof.
  intros He Ha. apply String.eqb_neq in He. simpl. now rewrite He, Ha.
Qed.

Lemma resolve_abs (cwd d : string) :
  isAbsolute d = true -> resolve cwd [d] = "/" ++ unsplit (absSegments d).
Proof.
  intros H. unfold resolve. cbn [rev app]. rewrite gather_abs by assumption.
  cbn [negb]. unfold normalizeString, absSegments, normSegments.
  rewrite split_app_slash, fold_left_app. reflexivity.
Qed.

Lemma resolve_abs_rel (cwd d e : string) :
  isAbsolute d = true -> e <> "" -> isAbsolute e = false ->
  resolve cwd [d; e]
  = "/" ++ unsplit (rev (fold_left (normStep false) (split e)
                                   (rev (absSegments d)))).
Proof.
  intros Hd He Ha. unfold resolve. cbn [rev app].
  rewrite gather_rel, gather_abs by assumption.
  cbn [negb]. unfold normalizeString, absSegments, normSegments.
  rewrite !split_app_slash, !fold_left_app, rev_involutive. reflexivity.
Qed.

Lemma resolve_abs_empty (cwd d : string) : resolve cwd [d; ""] = resolve cwd [d].
Proof. reflexivity. Qed.

Lemma resolve_isAbsolute (cwd d : string) (l : list string) :
  isAbsolute d = true -> isAbsolute (resolve cwd (d :: l)) = true.
Proof.
  intros H. unfold resolve.
  assert (Hg : forall rargs acc, snd (gather (rargs ++ [d; cwd]) acc) = true).
  { induction rargs as [|x r IH]; intros acc.
    - cbn [app]. now rewrite gather_abs.
    - cbn [app gather]. destruct (String.eqb x ""); [apply IH|].
      destruct (isAbsolute x); [reflexivity|apply IH]. }
  specialize (Hg (rev l) "").
  cbn [rev]. rewrite <- app_assoc. cbn [app].
  destruct (gather (rev l ++ [d; cwd]) "") as [rp ra]. simpl in Hg. subst.
  reflexivity.
Qed.

Lemma absSegments_canonical (T : list string) :
  Forall clean T -> Forall noSlash T -> absSegments ("/" ++ unsplit T) = T.
Proof.
  intros Hc Hn. unfold absSegments, normSegments.
  change (split ("/" ++ unsplit T)) with ("" :: split (unsplit T)).
  destruct T as [|x T']; [reflexivity|].
  rewrite split_unsplit by (assumption || discriminate).
  change (fold_left (normStep false) ("" :: x :: T') [])
    with (fold_left (normStep false) (x :: T') []).
  rewrite fold_clean, app_nil_r, rev_involutive by assumption. reflexivity.
Qed.

Lemma fold_canonical (T : list string) :
  Forall clean T -> Forall noSlash T ->
  fold_left (normStep false) (split ("/" ++ unsplit T)) [] = rev T.
Proof.
  intros Hc Hn. rewrite <- (absSegments_canonical T Hc Hn) at 2.
  unfold absSegments, normSegments. now rewrite rev_involutive.
Qed.

Lemma resolve_canonical (cwd : string) (T : list string) :
  Forall clean T -> Forall noSlash T ->
  resolve cwd ["/" ++ unsplit T] = "/" ++ unsplit T.
Proof.
  intros Hc Hn. rewrite resolve_abs by reflexivity.
  now rewrite absSegments_canonical.
Qed.

Lemma segments_canonical (T : list string) :
  Forall clean T -> Forall noSlash T -> segments ("/" ++ unsplit T) = T.
Proof.
  intros Hc Hn. unfold segments.
  change (split ("/" ++ unsplit T)) with ("" :: split (unsplit T)).
  destruct T as [|x T']; [reflexivity|].
  rewrite split_unsplit by (assumption || discriminate).
  change (filter ?f ("" :: ?l)) with (filter f l).
  apply forallb_filter_id. apply forallb_forall. intros s Hs.
  rewrite Forall_forall in Hc. destruct (Hc s Hs) as (H & _).
  apply String.eqb_neq in H. now rewrite H.
Qed.

Lemma relative_abs (cwd d t : string) :
  isAbsolute d = true -> isAbsolute t = true ->
  relative cwd d t
  = unsplit (repeat ".." (List.length (absSegments d)
                          - common (absSegments d) (absSegments t))
             ++ skipn (common (absSegments d) (absSegments t))
                      (absSegments t))%list.
Proof.
  intros Hd Ht. unfold relative.
  rewrite !resolve_abs by assumption.
  rewrite !segments_canonical
    by (apply absSegments_clean || apply absSegments_noSlash).
  reflexivity.
Qed.


(** *** A relative path leads back to its target *)

Lemma fold_relative (D T : list string) :
  Forall clean D -> Forall clean T ->
  rev (fold_left (normStep false)
         (repeat ".." (List.length D - common D T) ++ skipn (common D T) T)
         (rev D))
  = T.
Proof.
  intros HD HT. set (c := common D T).
  rewrite fold_left_app.
  rewrite <- (firstn_skipn c D) at 2. rewrite rev_app_distr.
  replace (List.length D - c) with (List.length (rev (skipn c D)))
    by (rewrite length_rev, length_skipn; reflexivity).
  rewrite fold_pops by (apply Forall_rev, Forall_skipn, HD).
  rewrite fold_clean by (apply Forall_skipn, HT).
  rewrite rev_app_distr, !rev_involutive.
  unfold c. rewrite common_firstn. apply firstn_skipn.
Qed.

Lemma unsplit_nonempty (x : string) (l : list string) :
  x <> "" -> unsplit (x :: l) <> "".
Proof.
  intros Hx. destruct (unsplit_head x l) as [rest ->].
  destruct x; [contradiction|discriminate].
Qed.

Lemma unsplit_relative_head (x : string) (l : list string) :
  x <> "" -> noSlash x -> isAbsolute (unsplit (x :: l)) = false.
Proof.
  intros Hx Hn. destruct (unsplit_head x l) as [rest ->].
  destruct x as [|ch x']; [contradiction|].
  apply noSlash_cons_inv in Hn as [Hc _]. exact Hc.
Qed.

Lemma resolve_relative_raw (cwd d t : string) :
  isAbsolute d = true -> isAbsolute t = true ->
  resolve cwd [d; relative cwd d t] = resolve cwd [t]
  /\ resolve cwd [d; "./" ++ relative cwd d t] = resolve cwd [t].
Proof.
  intros Hd Ht. rewrite relative_abs by assumption.
  rewrite (resolve_abs cwd t) by assumption.
  pose proof (absSegments_clean d) as HDc.
  pose proof (absSegments_clean t) as HTc.
  pose proof (absSegments_noSlash t) as HTn.
  pose proof (fold_relative _ _ HDc HTc) as Hfold.
  set (D := absSegments d) in *. set (T := absSegments t) in *.
  set (c := common D T) in *.
  assert (HL : Forall (fun s => noSlash s /\ s <> "")
                 (repeat ".." (List.length D - c) ++ skipn c T)%list).
  { apply Forall_app; split.
    - apply Forall_forall. intros s Hs. apply repeat_spec in Hs. subst.
      split; [reflexivity|discriminate].
    - apply Forall_skipn. apply Forall_forall. intros s Hs.
      rewrite Forall_forall in HTc, HTn. split; [now apply HTn|].
      now destruct (HTc s Hs). }
  assert (HLn : Forall noSlash
                  (repeat ".." (List.length D - c) ++ skipn c T)%list).
  { eapply Forall_impl; [|exact HL]. now intros s [H _]. }
  destruct (repeat ".." (List.length D - c) ++ skipn c T)%list
    as [|x L] eqn:EL.
  - simpl in Hfold. rewrite rev_involutive in Hfold. rewrite <- Hfold.
    split.
    + rewrite resolve_abs_empty. now apply resolve_abs.
    + change ("./" ++ unsplit []) with "./".
      rewrite resolve_abs_rel by (assumption || discriminate || reflexivity).
      change (fold_left (normStep false) (split "./") (rev (absSegments d)))
        with (rev (absSegments d)).
      now rewrite rev_involutive.
  - inversion HL as [|? ? [Hxn Hxe] _]; subst.
    split.
    + rewrite resolve_abs_rel;
        [|assumption|now apply unsplit_nonempty|now apply unsplit_relative_head].
      rewrite split_unsplit by (assumption || discriminate).
      change (absSegments d) with D. now rewrite Hfold.
    + rewrite resolve_abs_rel by (assumption || discriminate || reflexivity).
      change ("./" ++ unsplit (x :: L)) with ("." ++ String "/" (unsplit (x :: L))).
      rewrite split_app_slash, split_unsplit by (assumption || discriminate).
      change (fold_left (normStep false) (split "." ++ x :: L)
                (rev (absSegments d)))
        with (fold_left (normStep false) (x :: L) (rev D)).
      now rewrite Hfold.
Qed.

Theorem resolve_relative (cwd d t : string) :
  isAbsolute d = true -> isAbsolute t = true ->
  resolve cwd [d; JS.replaceLeadingNonDot (relative cwd d t)] = resolve cwd [t].
Proof.
  intros Hd Ht. destruct (resolve_relative_raw cwd d t Hd Ht) as [H1 H2].
  unfold JS.replaceLeadingNonDot.
  destruct (relative cwd d t) as [|ch rest] eqn:E; [exact H1|].
  destruct (Ascii.eqb ch "."); assumption.
Qed.

(** *** The shape of the paths the script builds *)

Lemma dirname_isAbsolute (p : string) :
  isAbsolute p = true -> isAbsolute (dirname p) = true.
Proof.
  destruct p as [|c0 rest]; [discriminate|].
  intros H. unfold dirname. change (isSlash c0) with (isAbsolute (String c0 rest)).
  rewrite H.
  destruct (dropName (dropSlashes (rev (list_ascii_of_string rest))));
    [reflexivity|].
  cbn [andb]. destruct (Nat.eqb _ 0); [reflexivity|exact H].
Qed.

Lemma resolve_shape (cwd d : string) (l : list string) :
  isAbsolute d = true ->
  exists P, Forall clean P /\ Forall noSlash P
            /\ resolve cwd (d :: l) = "/" ++ unsplit P.
Proof.
  intros H. unfold resolve.
  assert (Hg : forall rargs acc, snd (gather (rargs ++ [d; cwd]) acc) = true).
  { induction rargs as [|x r IH]; intros acc.
    - cbn [app]. now rewrite gather_abs.
    - cbn [app gather]. destruct (String.eqb x ""); [apply IH|].
      destruct (isAbsolute x); [reflexivity|apply IH]. }
  specialize (Hg (rev l) "").
  cbn [rev]. rewrite <- app_assoc. cbn [app].
  destruct (gather (rev l ++ [d; cwd]) "") as [rp ra]. simpl in Hg. subst.
  exists (absSegments rp).
  split; [apply absSegments_clean|]. split; [apply absSegments_noSlash|].
  reflexivity.
Qed.

Lemma unsplit_appendLast (l : list string) (s : string) :
  unsplit l ++ s = unsplit (appendLast l s).
Proof.
  induction l as [|x [|y r] IH]; [reflexivity|reflexivity|].
  change (unsplit (x :: y :: r)) with (x ++ "/" ++ unsplit (y :: r)).
  rewrite !append_assoc, IH.
  change (appendLast (x :: y :: r) s) with (x :: appendLast (y :: r) s).
  destruct (appendLast (y :: r) s) as [|z w] eqn:E; [|reflexivity].
  destruct r; discriminate.
Qed.

Lemma appendLast_Forall (P : string -> Prop) (l : list string) (s : string) :
  P s -> (forall x, P x -> P (x ++ s)) -> Forall P l ->
  Forall P (appendLast l s).
Proof.
  intros Hs Happ. induction l as [|x [|y r] IH]; intros Hl.
  - now repeat constructor.
  - inversion Hl; subst. repeat constructor. now apply Happ.
  - inversion Hl; subst.
    change (appendLast (x :: y :: r) s) with (x :: appendLast (y :: r) s).
    constructor; [assumption|now apply IH].
Qed.

Lemma clean_of_length (s : string) : 3 <= String.length s -> clean s.
Proof. intros H. repeat split; intros ->; simpl in H; lia. Qed.

(** A resolved path with an extension of three characters or more added
    is a resolved path. *)
Lemma resolve_extension (cwd d ext : string) (l : list string) :
  isAbsolute d = true -> noSlash ext -> 3 <= String.length ext ->
  resolve cwd [resolve cwd (d :: l) ++ ext] = resolve cwd (d :: l) ++ ext.
Proof.
  intros Hd Hn Hlen.
  destruct (resolve_shape cwd d l Hd) as (P & Hc & Hs & ->).
  change (("/" ++ unsplit P) ++ ext) with ("/" ++ (unsplit P ++ ext)).
  rewrite unsplit_appendLast. apply resolve_canonical.
  - apply appendLast_Forall; [now apply clean_of_length| |assumption].
    intros x _. apply clean_of_length. rewrite length_append. lia.
  - apply appendLast_Forall; [assumption| |assumption].
    intros x Hx. now apply noSlash_app.
Qed.

Lemma endsWith_slash_false (a b : string) :
  b <> "" -> JS.endsWith "/" b = false -> JS.endsWith "/" (a ++ b) = false.
Proof.
  intros Hb H. induction a as [|ch a IH]; [exact H|].
  cbn [append JS.endsWith]. rewrite IH.
  destruct (String.eqb_spec "/" (String ch (a ++ b))) as [E|]; [|reflexivity].
  injection E as _ E. destruct a; [|discriminate]. simpl in E. now subst.
Qed.

(** [index.ts] below a resolved directory. *)
Lemma join_index (cwd d : string) (l : list string) :
  isAbsolute d = true ->
  exists P, Forall clean P /\ Forall noSlash P
            /\ Path.join [resolve cwd (d :: l); "index.ts"]
               = "/" ++ unsplit P.
Proof.
  intros Hd.
  destruct (resolve_shape cwd d l Hd) as (P & Hc & Hs & ->).
  exists (P ++ ["index.ts"])%list.
  assert (HcP : Forall clean (P ++ ["index.ts"])%list).
  { apply Forall_app; split; [assumption|].
    repeat constructor; discriminate. }
  split; [exact HcP|]. split.
  { apply Forall_app; split; [assumption|]. now repeat constructor. }
  unfold Path.join. cbn [filter String.eqb append negb].
  change (unsplit [String "/" (unsplit P); "index.ts"])
    with (("/" ++ unsplit P) ++ String "/" "index.ts").
  unfold normalize.
  destruct (String.eqb_spec (("/" ++ unsplit P) ++ String "/" "index.ts") "")
    as [E|_]; [discriminate|].
  change (isAbsolute (("/" ++ unsplit P) ++ String "/" "index.ts")) with true.
  rewrite endsWith_slash_false by (discriminate || reflexivity).
  cbn [negb]. unfold normalizeString, normSegments.
  rewrite split_app_slash, fold_left_app.
  rewrite fold_canonical by assumption.
  change (split "index.ts") with ["index.ts"].
  cbn [fold_left]. change (normStep false (rev P) "index.ts")
    with ("index.ts" :: rev P).
  change (rev ("index.ts" :: rev P)) with (rev (rev P) ++ ["index.ts"])%list.
  rewrite rev_involutive.
  destruct (String.eqb_spec (unsplit (P ++ ["index.ts"])) "") as [E|_];
    [|reflexivity].
  exfalso. destruct P as [|x P']; [discriminate|].
  inversion Hc as [|? ? (Hx & _) _]; subst.
  now apply (unsplit_nonempty x (P' ++ ["index.ts"])).
Qed.

End PathFacts.

(** ** The files the build visits have absolute names *)

Lemma join_isAbsolute (d : string) (l : list string) :
  Path.isAbsolute d = true -> Path.isAbsolute (Path.join (d :: l)) = true.
Proof.
  intros Hd. destruct d as [|c d']; [discriminate|].
  assert (Hc : c = "/"%char) by now apply Ascii.eqb_eq.
  subst c. unfold Path.join. cbn [filter String.eqb negb].
  destruct (PathFacts.unsplit_head (String "/" d')
              (filter (fun a => negb (String.eqb a "")) l)) as [r ->].
  unfold Path.normalize. cbn [append String.eqb].
  change (Path.isAbsolute (String "/" (d' ++ r))) with true. cbn [negb].
  destruct (String.eqb _ ""); [reflexivity|].
  now destruct (JS.endsWith "/" _).
Qed.

Lemma Entry_nested_ind (P : Fs.Entry -> Prop) :
  (forall content, P (Fs.File content)) ->
  (forall entries, Forall (fun ne => P (snd ne)) entries -> P (Fs.Dir entries)) ->
  forall entry, P entry.
Proof.
  intros Hfile Hdir. fix IH 1. intros [content|entries].
  - apply Hfile.
  - apply Hdir. induction entries as [|[name child] es IHes]; constructor.
    + apply IH.
    + exact IHes.
Qed.

Lemma getFilesEntry_isAbsolute (entry : Fs.Entry) (fullPath : string) :
  Path.isAbsolute fullPath = true ->
  Forall (fun file => Path.isAbsolute file = true)
         (getFilesEntry fullPath entry).
Proof.
  revert fullPath.
  induction entry as [content|entries IH] using Entry_nested_ind;
    intros fullPath Habs; cbn [getFilesEntry].
  - now repeat constructor.
  - apply Forall_flat_map. rewrite Forall_forall in IH |- *.
    intros ne Hin. destruct (keepEntry false (fst ne)); [|constructor].
    apply IH; [assumption|now apply join_isAbsolute].
Qed.

Lemma getFiles_isAbsolute
      (cwd : string) (fs : Fs.Entry) (dir : string) (root : bool)
      (files : list string) :
  Path.isAbsolute dir = true ->
  getFiles cwd fs dir root = Ok files ->
  Forall (fun file => Path.isAbsolute file = true) files.
Proof.
  intros Habs. unfold getFiles.
  destruct (Fs.readdirEntries fs cwd dir) as [results|]; [|discriminate].
  cbn [bind]. intros [= <-]. apply Forall_flat_map, Forall_forall.
  intros ne _. now apply getFilesEntry_isAbsolute, join_isAbsolute.
Qed.

Lemma mapM_Forall {A B : Type} (f : A -> Result B) (Q : B -> Prop)
      (l : list A) (ys : list B) :
  (forall x y, f x = Ok y -> Q y) -> mapM f l = Ok ys -> Forall Q ys.
Proof.
  intros Hf. revert ys. induction l as [|x l IH]; cbn [mapM]; intros ys.
  - intros [= <-]. constructor.
  - destruct (f x) as [y|] eqn:Hx; [|discriminate].
    fold (mapM f l). destruct (mapM f l) as [ys'|]; [|discriminate].
    intros [= <-]. constructor; [now apply (Hf x)|now apply IH].
Qed.

(** Every file [getAllFiles] hands to [loadFile], and so every file name
    the visitor sees, is absolute. *)
Lemma enumerated_isAbsolute
      (__dirname cwd : string) (fs : Fs.Entry) (file : string) :
  Path.isAbsolute __dirname = true ->
  enumerated __dirname cwd fs file -> Path.isAbsolute file = true.
Proof.
  intros Habs (projects & results & _ & Hr & Hin).
  apply in_concat in Hin as (files & Hfiles & Hin).
  apply mapM_Forall
    with (Q := Forall (fun file => Path.isAbsolute file = true)) in Hr.
  - rewrite Forall_forall in Hr. specialize (Hr files Hfiles).
    rewrite Forall_forall in Hr. now apply Hr.
  - intros dir fl. apply getFiles_isAbsolute, join_isAbsolute.
    unfold packageDir. now apply PathFacts.resolve_isAbsolute.
Qed.

(** ** The rewriting of module specifiers *)

Lemma append_ext_differs (p : string) : p ++ ".ts" <> p ++ ".d.ts".
Proof. induction p as [|c p IH]; simpl; [discriminate|congruence]. Qed.

Lemma pointsAt_resolved (cwd fileName target : string) :
  Path.isAbsolute fileName = true ->
  Path.isAbsolute target = true ->
  Path.resolve cwd [target] = target ->
  pointsAt cwd (Path.dirname fileName)
    (Ok (JS.replaceLeadingNonDot
           (Path.relative cwd (Path.dirname fileName) target)))
    target.
Proof.
  intros Hf Ht Hres. eexists. split; [reflexivity|].
  rewrite PathFacts.resolve_relative;
    [assumption|now apply PathFacts.dirname_isAbsolute|assumption].
Qed.

Lemma resolved_extension_isAbsolute (cwd d ext : string) (l : list string) :
  Path.isAbsolute d = true ->
  Path.isAbsolute (Path.resolve cwd (d :: l) ++ ext) = true.
Proof.
  intros Hd. destruct (PathFacts.resolve_shape cwd d l Hd) as (P & _ & _ & ->).
  reflexivity.
Qed.

(** C1. A relative specifier is resolved by the ordered search: a directory
    at the resolved path gives [index.ts] in it, even when a source file of
    that name exists; otherwise the path with [.ts] added if that exists,
    and then never the one with [.d.ts]; otherwise the path with [.d.ts]
    added if that exists.  The rewritten specifier leads from the directory
    of the referencing file to that target. *)
Theorem relative_specifier_fallback_order
        (__dirname cwd : string) (fs : Fs.Entry) (fileName specifier : string) :
  Path.isAbsolute fileName = true ->
  JS.startsWithDot specifier = true ->
  let dirName := Path.dirname fileName in
  let modulePath := Path.resolve cwd [dirName; specifier] in
  let emitted := rewriteSpecifier __dirname cwd fs fileName specifier in
  (Fs.isDirectory fs cwd modulePath = true ->
   pointsAt cwd dirName emitted (Path.join [modulePath; "index.ts"]))
  /\ (Fs.isDirectory fs cwd modulePath = false ->
      Fs.existsSync fs cwd (modulePath ++ ".ts") = true ->
      pointsAt cwd dirName emitted (modulePath ++ ".ts")
      /\ ~ pointsAt cwd dirName emitted (modulePath ++ ".d.ts"))
  /\ (Fs.isDirectory fs cwd modulePath = false ->
      Fs.existsSync fs cwd (modulePath ++ ".ts") = false ->
      Fs.existsSync fs cwd (modulePath ++ ".d.ts") = true ->
      pointsAt cwd dirName emitted (modulePath ++ ".d.ts")).
Proof.
  intros Hf Hdot dirName modulePath emitted.
  assert (Hd : Path.isAbsolute dirName = true)
    by now apply PathFacts.dirname_isAbsolute.
  assert (Hts : pointsAt cwd dirName
                  (Ok (JS.replaceLeadingNonDot
                         (Path.relative cwd dirName (modulePath ++ ".ts"))))
                  (modulePath ++ ".ts")).
  { apply pointsAt_resolved; [assumption| |].
    - now apply resolved_extension_isAbsolute.
    - apply PathFacts.resolve_extension; [assumption|reflexivity|simpl; lia]. }
  unfold emitted, rewriteSpecifier. rewrite Hdot.
  fold dirName. fold modulePath.
  split; [|split].
  - intros Hdir. rewrite Hdir. cbn [bind].
    destruct (PathFacts.join_index cwd dirName [specifier] Hd)
      as (P & Hc & Hn & HP).
    fold modulePath in HP.
    apply pointsAt_resolved; [assumption|now rewrite HP|].
    rewrite HP. now apply PathFacts.resolve_canonical.
  - intros Hdir Hex. rewrite Hdir, Hex. cbn [bind].
    split; [exact Hts|].
    intros (e & He & Hr). destruct Hts as (e' & He' & Hr').
    rewrite He in He'. injection He' as <-.
    rewrite Hr in Hr'. symmetry in Hr'. now apply append_ext_differs in Hr'.
  - intros Hdir Hex Hdts. rewrite Hdir, Hex, Hdts. cbn [bind].
    apply pointsAt_resolved; [assumption| |].
    + now apply resolved_extension_isAbsolute.
    + apply PathFacts.resolve_extension; [assumption|reflexivity|simpl; lia].
Qed.

Lemma relative_specifier_fallback_order_witness :
  pointsAt sampleCwd "/repo/packages/core/src"
    (rewriteSpecifier sampleDirname sampleCwd sampleFs
       "/repo/packages/core/src/index.ts" "./helpers")
    "/repo/packages/core/src/helpers/index.ts"
  /\ pointsAt sampleCwd "/repo/packages/core/src"
       (rewriteSpecifier sampleDirname sampleCwd sampleFs
          "/repo/packages/core/src/index.ts" "./util")
       "/repo/packages/core/src/util.ts"
  /\ pointsAt sampleCwd "/repo/packages/core/src"
       (rewriteSpecifier sampleDirname sampleCwd sampleFs
          "/repo/packages/core/src/index.ts" "./types")
       "/repo/packages/core/src/types.d.ts".
Proof.
  split; [|split].
  - apply (relative_specifier_fallback_order sampleDirname sampleCwd sampleFs
             "/repo/packages/core/src/index.ts" "./helpers"
             eq_refl eq_refl).
    reflexivity.
  - apply (relative_specifier_fallback_order sampleDirname sampleCwd sampleFs
             "/repo/packages/core/src/index.ts" "./util"
             eq_refl eq_refl); reflexivity.
  - apply (relative_specifier_fallback_order sampleDirname sampleCwd sampleFs
             "/repo/packages/core/src/index.ts" "./types"
             eq_refl eq_refl); reflexivity.
Defined.

(** What the mapped branch computes for an entry of the table whose value
    is relative: the mapped path, taken from the source root, seen from
    the directory of the referencing file with its first [/src] cut
    out.  No [./] is put in front of it. *)
Lemma mapped_relative_specifier
      (__dirname cwd : string) (fs : Fs.Entry) (fileName specifier newMod : string) :
  JS.startsWithDot specifier = false ->
  assoc specifier moduleMap = Some newMod ->
  JS.startsWithDot newMod = true ->
  rewriteSpecifier __dirname cwd fs fileName specifier
  = Ok (Path.relative cwd (JS.replace "/src" "" (Path.dirname fileName))
          (Path.resolve cwd [packageDir __dirname cwd; newMod])).
Proof.
  intros Hbare Hmap Hrel. unfold rewriteSpecifier, moduleMapGet.
  rewrite Hbare, Hmap. cbn [truthy].
  destruct newMod as [|c rest]; [discriminate|].
  cbn [String.eqb negb]. now rewrite Hrel.
Qed.

(** C2. A file of the package [core] that imports [@pothos/core], which the
    table maps to [./core/index.ts]: the rewritten specifier is [index.ts],
    with no relative-path marker in front, while a relative specifier for
    the same target gets one. *)
Theorem mapped_specifier_without_marker (fs : Fs.Entry) :
  JS.startsWithDot "@pothos/core" = false
  /\ assoc "@pothos/core" moduleMap = Some "./core/index.ts"
  /\ rewriteSpecifier sampleDirname sampleCwd fs
       "/repo/packages/core/src/builder.ts" "@pothos/core"
     = Ok "index.ts"
  /\ JS.startsWithDot "index.ts" = false
  /\ rewriteSpecifier sampleDirname sampleCwd sampleFs
       "/repo/packages/core/index.ts" "./src"
     = Ok "./src/index.ts".
Proof. repeat split; reflexivity. Qed.

(** C3. A specifier that names an existing file with its extension, from a
    process whose working directory is not the directory of the
    referencing file: none of the candidates of the search exists, the
    file itself does, and the rewritten specifier leads to another path,
    below the working directory. *)
Theorem exact_file_specifier_resolved_from_cwd :
  let fileName := "/repo/packages/core/src/index.ts" in
  let dirName := Path.dirname fileName in
  let modulePath := Path.resolve sampleCwd [dirName; "./schema.json"] in
  modulePath = "/repo/packages/core/src/schema.json"
  /\ Fs.isDirectory sampleFs sampleCwd modulePath = false
  /\ Fs.existsSync sampleFs sampleCwd (modulePath ++ ".ts") = false
  /\ Fs.existsSync sampleFs sampleCwd (modulePath ++ ".d.ts") = false
  /\ Fs.isFile sampleFs sampleCwd modulePath = true
  /\ rewriteSpecifier sampleDirname sampleCwd sampleFs fileName "./schema.json"
     = Ok "../../deno/schema.json"
  /\ Path.resolve sampleCwd [dirName; "../../deno/schema.json"]
     = "/repo/packages/deno/schema.json"
  /\ ~ pointsAt sampleCwd dirName
         (rewriteSpecifier sampleDirname sampleCwd sampleFs fileName
            "./schema.json")
         modulePath.
Proof.
  repeat split; try reflexivity.
  intros (e & He & Hr). vm_compute in He. injection He as <-.
  vm_compute in Hr. discriminate.
Qed.

(** In the last case of the search the specifier itself, not the resolved
    path, is handed to [path.relative], which resolves it against the
    working directory of the process. *)
Lemma exact_file_specifier
      (__dirname cwd : string) (fs : Fs.Entry) (fileName specifier : string) :
  JS.startsWithDot specifier = true ->
  let dirName := Path.dirname fileName in
  let modulePath := Path.resolve cwd [dirName; specifier] in
  Fs.isDirectory fs cwd modulePath = false ->
  Fs.existsSync fs cwd (modulePath ++ ".ts") = false ->
  Fs.existsSync fs cwd (modulePath ++ ".d.ts") = false ->
  Fs.existsSync fs cwd modulePath = true ->
  rewriteSpecifier __dirname cwd fs fileName specifier
  = Ok (JS.replaceLeadingNonDot (Path.relative cwd dirName specifier)).
Proof.
  intros Hdot dirName modulePath Hdir Hts Hdts Hex.
  unfold rewriteSpecifier. rewrite Hdot. fold dirName. fold modulePath.
  now rewrite Hdir, Hts, Hdts, Hex.
Qed.

(** A relative specifier with no candidate at all is refused, and the
    message is the resolved path after a fixed text. *)
Lemma unresolvable_relative_specifier
      (__dirname cwd : string) (fs : Fs.Entry) (fileName specifier : string) :
  JS.startsWithDot specifier = true ->
  let modulePath := Path.resolve cwd [Path.dirname fileName; specifier] in
  Fs.isDirectory fs cwd modulePath = false ->
  Fs.existsSync fs cwd (modulePath ++ ".ts") = false ->
  Fs.existsSync fs cwd (modulePath ++ ".d.ts") = false ->
  Fs.existsSync fs cwd modulePath = false ->
  rewriteSpecifier __dirname cwd fs fileName specifier
  = Throw (Error ("Unable to resolve modulePath " ++ modulePath)).
Proof.
  intros Hdot modulePath Hdir Hts Hdts Hex.
  unfold rewriteSpecifier. rewrite Hdot. fold modulePath.
  now rewrite Hdir, Hts, Hdts, Hex.
Qed.

(** C4. A relative specifier for which nothing exists: resolution fails,
    and the message holds the resolved path only; neither the specifier
    nor the name of the referencing file occurs in it, while the message
    for an unknown bare specifier holds both. *)
Theorem unresolvable_specifier_message :
  let fileName := "/repo/packages/core/src/index.ts" in
  let message := "Unable to resolve modulePath /repo/packages/core/missing" in
  rewriteSpecifier sampleDirname sampleCwd sampleFs fileName "../missing"
  = Throw (Error message)
  /\ JS.includes "../missing" message = false
  /\ JS.includes fileName message = false
  /\ rewriteSpecifier sampleDirname sampleCwd sampleFs fileName "left-pad"
     = Throw (Error "Unknown module left-pad in /repo/packages/core/src/index.ts").
Proof. repeat split; reflexivity. Qed.

(** A bare specifier that is neither a key of the table nor the name of a
    member of [Object.prototype] is refused, and the message holds the
    specifier and the name of the referencing file. *)
Lemma unknown_bare_specifier
      (__dirname cwd : string) (fs : Fs.Entry) (fileName specifier : string) :
  JS.startsWithDot specifier = false ->
  assoc specifier moduleMap = None ->
  JS.arrayIncludes objectPrototypeKeys specifier = false ->
  rewriteSpecifier __dirname cwd fs fileName specifier
  = Throw (Error ("Unknown module " ++ specifier ++ " in " ++ fileName)).
Proof.
  intros Hbare Hmap Hproto. unfold rewriteSpecifier, moduleMapGet.
  now rewrite Hbare, Hmap, Hproto.
Qed.

(** C5. The bare specifier [constructor] has no entry in the table, yet
    [moduleMap['constructor']] is the function inherited from
    [Object.prototype]: the branch of the mapped specifiers is taken and
    the call of [startsWith] on that function raises a [TypeError], whose
    message holds neither the specifier nor the file. *)
Theorem inherited_key_specifier (__dirname cwd : string) (fs : Fs.Entry)
        (fileName : string) :
  JS.startsWithDot "constructor" = false
  /\ assoc "constructor" moduleMap = None
  /\ rewriteSpecifier __dirname cwd fs fileName "constructor"
     = Throw (TypeError "newMod.startsWith is not a function")
  /\ rewriteSpecifier __dirname cwd fs fileName "constructor"
     <> Throw (Error ("Unknown module constructor in " ++ fileName)).
Proof. repeat split; try reflexivity. discriminate. Qed.

Lemma moduleMap_values_nonempty (key value : string) :
  assoc key moduleMap = Some value -> value <> "".
Proof.
  unfold moduleMap. cbn [assoc].
  repeat (destruct (String.eqb key _);
          [intros H; injection H as <-; discriminate|]).
  discriminate.
Qed.

(** C6. A bare specifier with an entry in the table whose value does not
    begin with a relative-path marker is replaced by that value, character
    for character. *)
Theorem mapped_external_specifier
        (__dirname cwd : string) (fs : Fs.Entry) (fileName specifier value : string) :
  JS.startsWithDot specifier = false ->
  assoc specifier moduleMap = Some value ->
  JS.startsWithDot value = false ->
  rewriteSpecifier __dirname cwd fs fileName specifier = Ok value.
Proof.
  intros Hbare Hmap Hext. unfold rewriteSpecifier, moduleMapGet.
  rewrite Hbare, Hmap. cbn [truthy].
  apply moduleMap_values_nonempty, String.eqb_neq in Hmap.
  now rewrite Hmap, Hext.
Qed.

Lemma mapped_external_specifier_witness :
  rewriteSpecifier sampleDirname sampleCwd sampleFs
    "/repo/packages/core/src/index.ts" "graphql"
  = Ok "https://cdn.skypack.dev/graphql?dts".
Proof.
  apply (mapped_external_specifier sampleDirname sampleCwd sampleFs
           "/repo/packages/core/src/index.ts" "graphql"
           "https://cdn.skypack.dev/graphql?dts");
    reflexivity.
Defined.

(** ** Output paths *)

Lemma loadFile_path
      (__dirname cwd : string) (createSourceFile : string -> string -> Ts.Node)
      (printFile : Ts.Node -> string) (fs : Fs.Entry) (file : string)
      (loaded : LoadedFile) :
  loadFile __dirname cwd createSourceFile printFile fs file = Ok loaded ->
  path loaded = loadFile_newPath __dirname cwd file.
Proof.
  unfold loadFile. destruct (JS.endsWith ".ts" file).
  - destruct (Fs.readFile fs cwd file) as [text|]; [|discriminate].
    cbn [bind]. destruct (importTransformer _ _ _ _) as [result|]; [|discriminate].
    cbn [bind]. now intros [= <-].
  - destruct (Fs.readFile fs cwd file) as [data|]; [|discriminate].
    cbn [bind]. now intros [= <-].
Qed.

(** C7. The output path is the mirrored path with the first occurrence of
    the text [/src] cut out, wherever it is: a directory whose name only
    begins with [src] loses these letters and its separator, and when the
    repository itself lies below a directory [src] it is that segment
    which is cut, which moves the file out of the output root and keeps
    the [src] of the package. *)
Theorem output_path_cuts_first_src_text :
  loadFile_newPath sampleDirname sampleCwd "/repo/packages/core/src/index.ts"
  = "/repo/packages/deno/packages/core/index.ts"
  /\ loadFile_newPath sampleDirname sampleCwd "/repo/packages/core/srcset/a.ts"
     = "/repo/packages/deno/packages/coreset/a.ts"
  /\ targetDir "/home/dev/src/pothos/packages/deno/scripts" sampleCwd
     = "/home/dev/src/pothos/packages/deno/packages"
  /\ loadFile_newPath "/home/dev/src/pothos/packages/deno/scripts" sampleCwd
       "/home/dev/src/pothos/packages/core/src/index.ts"
     = "/home/dev/pothos/packages/deno/packages/core/src/index.ts".
Proof. repeat split; reflexivity. Qed.

(** ** Package discovery *)

(** C8, as stated: every entry [getPackages] returns is a directory.  The
    sample tree has a file next to the packages, and it is returned. *)
Lemma getPackages_returns_a_file :
  ~ (forall (fs : Fs.Entry) (entries : list string),
        getPackages sampleDirname sampleCwd fs = Ok entries ->
        Forall (fun entry =>
                  Fs.isDirectory fs sampleCwd
                    (Path.join [packageDir sampleDirname sampleCwd; entry])
                  = true)
               entries).
Proof.
  intros H. specialize (H sampleFs ["core"; "README.md"] eq_refl).
  inversion H as [|? ? _ H']; subst. inversion H' as [|? ? Hfile _]; subst.
  vm_compute in Hfile. discriminate.
Qed.

(** C8, amended. [getPackages] returns, in listing order, the names of all
    the entries of the source root that are not in the exclusion set,
    directories or not. *)
Theorem getPackages_keeps_every_entry
        (__dirname cwd : string) (fs : Fs.Entry) (es : list (string * Fs.Entry)) :
  Fs.readdirEntries fs cwd (packageDir __dirname cwd) = Ok es ->
  getPackages __dirname cwd fs
  = Ok (map fst
          (filter (fun ne => negb (JS.arrayIncludes excludedPackages (fst ne)))
                  es)).
Proof.
  intros Hes. unfold getPackages, Fs.readdir. rewrite Hes. cbn [bind].
  f_equal. clear Hes. induction es as [|[name entry] es' IH]; [reflexivity|].
  cbn [map filter fst].
  destruct (negb (JS.arrayIncludes excludedPackages name)); cbn [map fst];
    now rewrite IH.
Qed.

Lemma getPackages_keeps_every_entry_witness :
  getPackages sampleDirname sampleCwd sampleFs = Ok ["core"; "README.md"].
Proof.
  apply (getPackages_keeps_every_entry sampleDirname sampleCwd sampleFs
           [("core", Fs.Dir
               [("package.json", Fs.File "{}");
                ("src", Fs.Dir
                   [("index.ts", Fs.File "./util");
                    ("util.ts", Fs.File "graphql");
                    ("util.d.ts", Fs.File "graphql");
                    ("helpers", Fs.Dir [("index.ts", Fs.File "../util")]);
                    ("helpers.ts", Fs.File "./util");
                    ("types.d.ts", Fs.File "zod");
                    ("schema.json", Fs.File "{}")]);
                ("lib", Fs.Dir [("index.js", Fs.File "")])]);
            ("deno", Fs.Dir
               [("scripts", Fs.Dir [("build.ts", Fs.File "")]);
                ("packages", Fs.Dir [("stale.ts", Fs.File "")])]);
            ("README.md", Fs.File "")]).
  reflexivity.
Defined.

(** ** The visitor *)

Lemma Node_nested_ind (P : Ts.Node -> Prop) :
  (forall d m ic spec ac, P (Ts.ImportDeclaration d m ic spec ac)) ->
  (forall d m ty ec spec ac, P (Ts.ExportDeclaration d m ty ec spec ac)) ->
  (forall kind text children,
      Forall P children -> P (Ts.OtherNode kind text children)) ->
  forall node, P node.
Proof.
  intros Himport Hexport Hother.
  fix IH 1. intros [d m ic spec ac|d m ty ec spec ac|kind text children].
  - apply Himport.
  - apply Hexport.
  - apply Hother. induction children as [|c cs IHcs]; constructor.
    + apply IH.
    + exact IHcs.
Qed.

Lemma mapM_id {A : Type} (f : A -> Result A) (l : list A) :
  Forall (fun x => f x = Ok x) l -> mapM f l = Ok l.
Proof.
  induction 1 as [|x l Hx _ IH]; simpl; [reflexivity|].
  now rewrite Hx, IH.
Qed.

Lemma visitor_without_specifier
      (__dirname cwd : string) (fs : Fs.Entry) (fileName : string)
      (node : Ts.Node) :
  hasSpecifier node = false -> visitor __dirname cwd fs fileName node = Ok node.
Proof.
  induction node as [d m ic spec ac|d m ty ec spec ac|kind text children IH]
    using Node_nested_ind; cbn [hasSpecifier visitor].
  - destruct (Ts.stringLiteralLikeText spec); [discriminate|reflexivity].
  - destruct spec as [spec|]; [|reflexivity].
    destruct (Ts.stringLiteralLikeText spec); [discriminate|reflexivity].
  - intros Hnone. rewrite mapM_id; [reflexivity|].
    induction IH as [|c cs Hc _ IHcs]; [constructor|].
    cbn [existsb] in Hnone. apply orb_false_iff in Hnone as [H1 H2].
    constructor; [now apply Hc|now apply IHcs].
Qed.

(** C9, as stated: every other aspect of a rewritten declaration is kept.
    The assert clause of an import declaration is not. *)
Lemma visitor_drops_assert_clause :
  let node :=
    Ts.ImportDeclaration None None (Some "data")
      (Ts.StringLiteral "./util" false) (Some "assert { type: 'x' }") in
  exists node',
    visitor sampleDirname sampleCwd sampleFs
      "/repo/packages/core/src/index.ts" node = Ok node'
    /\ node' = Ts.ImportDeclaration None None (Some "data")
                 (Ts.StringLiteral "./util.ts" true) None
    /\ Ts.assertClauseOf node' <> Ts.assertClauseOf node.
Proof. eexists. repeat split. discriminate. Qed.

(** C9, amended. In a rewritten import or export declaration the
    decorators, the modifiers, the import or export clause and the
    type-only flag are those of the declaration, the specifier is a
    single-quoted string literal with the resolved text, and the assert
    clause is left out.  A tree with no import or export declaration that
    has a string literal as its specifier comes back as it is, and any
    other node keeps its kind and text around its visited children. *)
Theorem visitor_frame
        (__dirname cwd : string) (fs : Fs.Entry) (fileName : string) :
  (forall d m ic spec ac text mod',
      Ts.stringLiteralLikeText spec = Some text ->
      rewriteSpecifier __dirname cwd fs fileName text = Ok mod' ->
      visitor __dirname cwd fs fileName (Ts.ImportDeclaration d m ic spec ac)
      = Ok (Ts.ImportDeclaration d m ic (Ts.StringLiteral mod' true) None))
  /\ (forall d m ty ec spec ac text mod',
         Ts.stringLiteralLikeText spec = Some text ->
         rewriteSpecifier __dirname cwd fs fileName text = Ok mod' ->
         visitor __dirname cwd fs fileName
           (Ts.ExportDeclaration d m ty ec (Some spec) ac)
         = Ok (Ts.ExportDeclaration d m ty ec
                 (Some (Ts.StringLiteral mod' true)) None))
  /\ (forall node,
         hasSpecifier node = false ->
         visitor __dirname cwd fs fileName node = Ok node)
  /\ (forall kind text children children',
         mapM (visitor __dirname cwd fs fileName) children = Ok children' ->
         visitor __dirname cwd fs fileName (Ts.OtherNode kind text children)
         = Ok (Ts.OtherNode kind text children')).
Proof.
  repeat split.
  - intros d m ic spec ac text mod' Hlit Hres. cbn [visitor].
    now rewrite Hlit, Hres.
  - intros d m ty ec spec ac text mod' Hlit Hres. cbn [visitor].
    now rewrite Hlit, Hres.
  - apply visitor_without_specifier.
  - intros kind text children children' Hmap. cbn [visitor].
    now rewrite Hmap.
Qed.

Lemma visitor_frame_witness :
  let visit := visitor sampleDirname sampleCwd sampleFs
                 "/repo/packages/core/src/index.ts" in
  visit (Ts.ImportDeclaration (Some "@d") (Some "declare") (Some "type { A }")
           (Ts.StringLiteral "./util" false) None)
  = Ok (Ts.ImportDeclaration (Some "@d") (Some "declare") (Some "type { A }")
          (Ts.StringLiteral "./util.ts" true) None)
  /\ visit (Ts.ExportDeclaration None None true None
              (Some (Ts.NoSubstitutionTemplateLiteral "graphql")) None)
     = Ok (Ts.ExportDeclaration None None true None
             (Some (Ts.StringLiteral "https://cdn.skypack.dev/graphql?dts" true))
             None)
  /\ visit (Ts.OtherNode "ModuleDeclaration" "m"
              [Ts.ExportDeclaration None None false (Some "{ a }") None None;
               Ts.OtherNode "VariableStatement" "const a = 1" []])
     = Ok (Ts.OtherNode "ModuleDeclaration" "m"
             [Ts.ExportDeclaration None None false (Some "{ a }") None None;
              Ts.OtherNode "VariableStatement" "const a = 1" []])
  /\ visit (Ts.OtherNode "SourceFile" ""
              [Ts.ImportDeclaration None None None
                 (Ts.StringLiteral "zod" true) None])
     = Ok (Ts.OtherNode "SourceFile" ""
             [Ts.ImportDeclaration None None None
                (Ts.StringLiteral "https://cdn.skypack.dev/zod@v1.11.17?dts" true)
                None]).
Proof.
  pose proof (visitor_frame sampleDirname sampleCwd sampleFs
                "/repo/packages/core/src/index.ts") as (Himp & Hexp & Hsame & Hother).
  intros visit. split; [|split; [|split]].
  - apply (Himp _ _ _ _ _ "./util"); reflexivity.
  - apply (Hexp _ _ _ _ _ _ "graphql"); reflexivity.
  - apply Hsame. reflexivity.
  - apply Hother. reflexivity.
Defined.

(** ** The build driver *)

Lemma mapM_throws {A B : Type} (f : A -> Result B) (l : list A) (x : A) :
  In x l -> isThrow (f x) = true -> isThrow (mapM f l) = true.
Proof.
  induction l as [|y l IH]; intros Hin Hx; [contradiction|].
  cbn [mapM]. destruct Hin as [->|Hin].
  - destruct (f x); [discriminate|reflexivity].
  - destruct (f y); [|reflexivity].
    specialize (IH Hin Hx). fold (mapM f l).
    destruct (mapM f l); [discriminate|reflexivity].
Qed.

Lemma loadFile_throws
      (__dirname cwd : string) (createSourceFile : string -> string -> Ts.Node)
      (printFile : Ts.Node -> string) (fs : Fs.Entry) (file text : string)
      (t : Thrown) :
  JS.endsWith ".ts" file = true ->
  Fs.readFile fs cwd file = Ok text ->
  visitor __dirname cwd fs file (createSourceFile file text) = Throw t ->
  loadFile __dirname cwd createSourceFile printFile fs file = Throw t.
Proof.
  intros Hts Hread Hvisit. unfold loadFile, importTransformer.
  rewrite Hts, Hread. cbn [bind Ts.fileName Ts.root]. now rewrite Hvisit.
Qed.

Lemma getAllFiles_throws
      (__dirname cwd : string) (createSourceFile : string -> string -> Ts.Node)
      (printFile : Ts.Node -> string) (fs : Fs.Entry) (file : string) :
  enumerated __dirname cwd fs file ->
  isThrow (loadFile __dirname cwd createSourceFile printFile fs file) = true ->
  isThrow (getAllFiles __dirname cwd createSourceFile printFile fs) = true.
Proof.
  intros (projects & results & Hp & Hr & Hin) Hload.
  unfold getAllFiles. rewrite Hp. cbn [bind]. rewrite Hr. cbn [bind].
  pose proof (mapM_throws _ _ _ Hin Hload) as Hall.
  destruct (mapM _ (concat results)); [discriminate|reflexivity].
Qed.

(** A run that fails before the write phase has removed the output root
    and done nothing else. *)
Lemma build_effects_of_failed_run
      (__dirname cwd : string) (createSourceFile : string -> string -> Ts.Node)
      (printFile : Ts.Node -> string) (fs : Fs.Entry) :
  isThrow (getAllFiles __dirname cwd createSourceFile printFile
             (Fs.rm fs cwd (targetDir __dirname cwd))) = true ->
  build __dirname cwd createSourceFile printFile fs
  = ([RmEffect (targetDir __dirname cwd)],
     snd (build __dirname cwd createSourceFile printFile fs)).
Proof.
  unfold build. destruct (getAllFiles _ _ _ _ _); [discriminate|reflexivity].
Qed.

(** C10. When the transform of one of the enumerated files fails on a
    specifier, the run fails and its only effect on the output side is the
    removal of the output root, which [build] does first, on the tree the
    files are then read from: no directory is made and no file written. *)
Theorem build_writes_nothing_when_a_transform_fails
        (__dirname cwd : string) (createSourceFile : string -> string -> Ts.Node)
        (printFile : Ts.Node -> string) (fs : Fs.Entry) (file text : string)
        (t : Thrown) :
  let fs' := Fs.rm fs cwd (targetDir __dirname cwd) in
  enumerated __dirname cwd fs' file ->
  JS.endsWith ".ts" file = true ->
  Fs.readFile fs' cwd file = Ok text ->
  visitor __dirname cwd fs' file (createSourceFile file text) = Throw t ->
  fst (build __dirname cwd createSourceFile printFile fs)
  = [RmEffect (targetDir __dirname cwd)]
  /\ isThrow (snd (build __dirname cwd createSourceFile printFile fs)) = true.
Proof.
  intros fs' Henum Hts Hread Hvisit.
  assert (Hall : isThrow (getAllFiles __dirname cwd createSourceFile
                            printFile fs') = true).
  { apply (getAllFiles_throws _ _ _ _ _ file Henum).
    now rewrite (loadFile_throws _ _ _ _ _ _ _ _ Hts Hread Hvisit). }
  unfold build. fold fs'.
  destruct (getAllFiles __dirname cwd createSourceFile printFile fs');
    [discriminate|split; reflexivity].
Qed.

Lemma build_writes_nothing_when_a_transform_fails_witness :
  fst (build sampleDirname sampleCwd sampleParser samplePrinter sampleFsUnknown)
  = [RmEffect "/repo/packages/deno/packages"]
  /\ isThrow (snd (build sampleDirname sampleCwd sampleParser samplePrinter
                     sampleFsUnknown)) = true.
Proof.
  apply (build_writes_nothing_when_a_transform_fails
           sampleDirname sampleCwd sampleParser samplePrinter sampleFsUnknown
           "/repo/packages/core/src/util.ts" "left-pad"
           (Error "Unknown module left-pad in /repo/packages/core/src/util.ts")).
  - exists ["core"],
      [["/repo/packages/core/src/index.ts"; "/repo/packages/core/src/util.ts"]].
    split; [reflexivity|]. split; [reflexivity|]. right. left. reflexivity.
  - reflexivity.
  - reflexivity.
  - reflexivity.
Defined.

(** A run on a tree whose specifiers all resolve: the removal, then a
    directory and a file for each loaded file and for the companion module
    of the package. *)
Example build_small_tree :
  build sampleDirname sampleCwd sampleParser samplePrinter
    (Fs.Dir
       [("repo", Fs.Dir
          [("packages", Fs.Dir
             [("core", Fs.Dir
                [("src", Fs.Dir
                    [("index.ts", Fs.File "./util");
                     ("util.ts", Fs.File "graphql")])])])])])
  = ([RmEffect "/repo/packages/deno/packages";
      MkdirEffect "/repo/packages/deno/packages/core";
      WriteFileEffect "/repo/packages/deno/packages/core/index.ts"
        ("// @ts-nocheck" ++ newline ++ "./util.ts");
      MkdirEffect "/repo/packages/deno/packages/core";
      WriteFileEffect "/repo/packages/deno/packages/core/util.ts"
        ("// @ts-nocheck" ++ newline ++ "https://cdn.skypack.dev/graphql?dts");
      MkdirEffect "/repo/packages/deno/packages/core";
      WriteFileEffect "/repo/packages/deno/packages/core/mod.ts" modFile],
     Ok tt).
Proof. reflexivity. Qed.

(** A file next to the packages stops the run at the enumeration. *)
Example build_with_file_in_source_root :
  build sampleDirname sampleCwd sampleParser samplePrinter sampleFs
  = ([RmEffect "/repo/packages/deno/packages"],
     Throw (SystemError "ENOTDIR" "/repo/packages/README.md")).
Proof. reflexivity. Qed.

(** ** The path functions on examples *)

Example split_ex : Path.split "/a//b/" = [""; "a"; ""; "b"; ""].
Proof. reflexivity. Qed.

Example resolve_ex1 :
  Path.resolve "/w" ["/repo/packages/deno/scripts"; "../../"] = "/repo/packages".
Proof. reflexivity. Qed.

Example resolve_ex2 : Path.resolve "/w/x" ["../a"; "./b.json"] = "/w/a/b.json".
Proof. reflexivity. Qed.

Example relative_ex1 :
  Path.relative "/w" "/repo/packages/core/src" "/repo/packages/core/src/util.ts"
  = "util.ts".
Proof. reflexivity. Qed.

Example relative_ex2 : Path.relative "/w" "/a/b/c" "/a/d" = "../../d".
Proof. reflexivity. Qed.

Example relative_ex3 : Path.relative "/w" "/" "/foo" = "foo".
Proof. reflexivity. Qed.

Example dirname_ex1 : Path.dirname "/a/b/c.ts" = "/a/b".
Proof. reflexivity. Qed.

Example dirname_ex2 : Path.dirname "/c.ts" = "/".
Proof. reflexivity. Qed.

Example dirname_ex3 : Path.dirname "a/b//" = "a".
Proof. reflexivity. Qed.

Example join_ex1 : Path.join ["/a/b"; "index.ts"] = "/a/b/index.ts".
Proof. reflexivity. Qed.

Example join_ex2 : Path.join ["/a/b"; "../c/"; ""] = "/a/c/".
Proof. reflexivity. Qed.

Example replace_ex1 : JS.replace "/src" "" "/r/core/src/a/src/b.ts" = "/r/core/a/src/b.ts".
Proof. reflexivity. Qed.

Example replace_ex2 : JS.replace "/src" "" "/r/core/lib" = "/r/core/lib".
Proof. reflexivity. Qed.

Example getPackages_directories_only :
  getPackages sampleDirname sampleCwd sampleFsDirs = Ok ["core"].
Proof. reflexivity. Qed.

Example getFiles_core :
  getFiles sampleCwd sampleFs "/repo/packages/core" true
  = Ok ["/repo/packages/core/src/index.ts";
        "/repo/packages/core/src/util.ts";
        "/repo/packages/core/src/util.d.ts";
        "/repo/packages/core/src/helpers/index.ts";
        "/repo/packages/core/src/helpers.ts";
        "/repo/packages/core/src/types.d.ts";
        "/repo/packages/core/src/schema.json"].
Proof. reflexivity. Qed.

(** * Further properties of the script *)

(** ** When a specifier is rewritten *)

Lemma isDirectory_existsSync (fs : Fs.Entry) (cwd p : string) :
  Fs.isDirectory fs cwd p = true -> Fs.existsSync fs cwd p = true.
Proof.
  unfold Fs.isDirectory, Fs.existsSync.
  destruct (Fs.stat fs cwd p) as [[|]|]; intros H; (discriminate || reflexivity).
Qed.

(** X1. A relative specifier is rewritten exactly when something exists at
    the resolved path, at that path with [.ts] added, or at that path with
    [.d.ts] added; otherwise the visitor throws. *)
Theorem relative_specifier_rewritten_iff_candidate
        (__dirname cwd : string) (fs : Fs.Entry) (fileName specifier : string) :
  JS.startsWithDot specifier = true ->
  let modulePath := Path.resolve cwd [Path.dirname fileName; specifier] in
  isOk (rewriteSpecifier __dirname cwd fs fileName specifier)
  = Fs.existsSync fs cwd modulePath
    || Fs.existsSync fs cwd (modulePath ++ ".ts")
    || Fs.existsSync fs cwd (modulePath ++ ".d.ts").
Proof.
  intros Hdot modulePath. unfold rewriteSpecifier. rewrite Hdot.
  fold modulePath.
  destruct (Fs.isDirectory fs cwd modulePath) eqn:Hdir.
  - now rewrite (isDirectory_existsSync _ _ _ Hdir).
  - destruct (Fs.existsSync fs cwd (modulePath ++ ".ts"));
      [now rewrite orb_true_r|].
    destruct (Fs.existsSync fs cwd (modulePath ++ ".d.ts"));
      [now rewrite orb_true_r|].
    now destruct (Fs.existsSync fs cwd modulePath).
Qed.

Lemma relative_specifier_rewritten_iff_candidate_witness :
  isOk (rewriteSpecifier sampleDirname sampleCwd sampleFs
          "/repo/packages/core/src/index.ts" "./nothing")
  = false.
Proof.
  exact (relative_specifier_rewritten_iff_candidate sampleDirname sampleCwd
           sampleFs "/repo/packages/core/src/index.ts" "./nothing" eq_refl).
Defined.

(** X2. A bare specifier is rewritten exactly when it is one of the keys
    the object literal [moduleMap] owns, and what comes out does not depend
    on the file system. *)
Theorem bare_specifier_rewritten_iff_mapped
        (__dirname cwd : string) (fs fs' : Fs.Entry) (fileName specifier : string) :
  JS.startsWithDot specifier = false ->
  isOk (rewriteSpecifier __dirname cwd fs fileName specifier)
  = isSome (assoc specifier moduleMap)
  /\ rewriteSpecifier __dirname cwd fs fileName specifier
     = rewriteSpecifier __dirname cwd fs' fileName specifier.
Proof.
  intros Hbare. unfold rewriteSpecifier, moduleMapGet. rewrite Hbare.
  split; [|reflexivity].
  destruct (assoc specifier moduleMap) as [value|] eqn:Hmap.
  - cbn [truthy].
    apply moduleMap_values_nonempty, String.eqb_neq in Hmap. rewrite Hmap.
    now destruct (JS.startsWithDot value).
  - now destruct (JS.arrayIncludes objectPrototypeKeys specifier).
Qed.

Lemma bare_specifier_rewritten_iff_mapped_witness :
  isOk (rewriteSpecifier sampleDirname sampleCwd sampleFs
          "/repo/packages/core/src/index.ts" "toString")
  = false
  /\ rewriteSpecifier sampleDirname sampleCwd sampleFs
       "/repo/packages/core/src/index.ts" "toString"
     = rewriteSpecifier sampleDirname sampleCwd sampleFsSmall
         "/repo/packages/core/src/index.ts" "toString".
Proof.
  exact (bare_specifier_rewritten_iff_mapped sampleDirname sampleCwd
           sampleFs sampleFsSmall "/repo/packages/core/src/index.ts"
           "toString" eq_refl).
Defined.

(** X3. For a key of the table with a relative value, the rewritten
    specifier leads, from the directory of the referencing file with its
    first [/src] cut out, to the mapped path taken from the source root,
    as long as what is left of that directory is still an absolute path. *)
Theorem mapped_relative_specifier_leads_to_target
        (__dirname cwd : string) (fs : Fs.Entry)
        (fileName specifier newMod : string) :
  Path.isAbsolute __dirname = true ->
  JS.startsWithDot specifier = false ->
  assoc specifier moduleMap = Some newMod ->
  JS.startsWithDot newMod = true ->
  Path.isAbsolute (JS.replace "/src" "" (Path.dirname fileName)) = true ->
  pointsAt cwd (JS.replace "/src" "" (Path.dirname fileName))
    (rewriteSpecifier __dirname cwd fs fileName specifier)
    (Path.resolve cwd [packageDir __dirname cwd; newMod]).
Proof.
  intros Habs Hbare Hmap Hrel Hdir.
  rewrite (mapped_relative_specifier _ _ _ _ _ _ Hbare Hmap Hrel).
  eexists. split; [reflexivity|].
  assert (Hpkg : Path.isAbsolute (packageDir __dirname cwd) = true)
    by now apply PathFacts.resolve_isAbsolute.
  destruct (PathFacts.resolve_shape cwd _ [newMod] Hpkg) as (P & Hc & Hn & HP).
  destruct (PathFacts.resolve_relative_raw cwd
              (JS.replace "/src" "" (Path.dirname fileName))
              (Path.resolve cwd [packageDir __dirname cwd; newMod]))
    as [Hraw _]; [assumption|now rewrite HP|].
  rewrite Hraw, HP. now apply PathFacts.resolve_canonical.
Qed.

Lemma mapped_relative_specifier_leads_to_target_witness :
  pointsAt sampleCwd "/repo/packages/plugin-x/utils"
    (rewriteSpecifier sampleDirname sampleCwd sampleFs
       "/repo/packages/plugin-x/src/utils/a.ts" "@pothos/core")
    "/repo/packages/core/index.ts".
Proof.
  exact (mapped_relative_specifier_leads_to_target sampleDirname sampleCwd
           sampleFs "/repo/packages/plugin-x/src/utils/a.ts" "@pothos/core"
           "./core/index.ts" eq_refl eq_refl eq_refl eq_refl eq_refl).
Defined.

(** ** The visitor on whole trees *)

Lemma mapM_Forall2 {A B : Type} (f : A -> Result B) (l : list A) (ys : list B) :
  mapM f l = Ok ys -> Forall2 (fun x y => f x = Ok y) l ys.
Proof.
  revert ys. induction l as [|x l IH]; cbn [mapM]; intros ys.
  - intros [= <-]. constructor.
  - destruct (f x) as [y|] eqn:Hx; [|discriminate].
    fold (mapM f l). destruct (mapM f l) as [ys'|]; [|discriminate].
    intros [= <-]. constructor; [assumption|now apply IH].
Qed.

Lemma mapM_throw_inv {A B : Type} (f : A -> Result B) (l : list A) (t : Thrown) :
  mapM f l = Throw t -> exists x, In x l /\ f x = Throw t.
Proof.
  induction l as [|x l IH]; cbn [mapM]; [discriminate|].
  destruct (f x) as [y|t'] eqn:Hx.
  - fold (mapM f l). destruct (mapM f l) as [ys|t'']; [discriminate|].
    intros [= <-]. destruct (IH eq_refl) as (x' & Hin & Hx').
    exists x'. split; [now right|assumption].
  - intros [= <-]. exists x. split; [now left|assumption].
Qed.


Lemma mapM_isOk {A B : Type} (f : A -> Result B) (l : list A) :
  isOk (mapM f l) = forallb (fun x => isOk (f x)) l.
Proof.
  induction l as [|x l IH]; [reflexivity|].
  cbn [mapM forallb]. destruct (f x); [|reflexivity].
  fold (mapM f l). cbn [isOk andb]. rewrite <- IH.
  now destruct (mapM f l).
Qed.

Lemma forallb_agree {A : Type} (p q : A -> bool) (l : list A) :
  (forall x, In x l -> p x = q x) -> forallb p l = forallb q l.
Proof.
  induction l as [|x l IH]; intros H; [reflexivity|].
  cbn [forallb]. rewrite (H x (or_introl eq_refl)), IH; [reflexivity|].
  intros y Hy. apply H. now right.
Qed.

Lemma forallb_flat_map {A B : Type} (p : B -> bool) (g : A -> list B)
      (l : list A) :
  forallb p (flat_map g l) = forallb (fun x => forallb p (g x)) l.
Proof.
  induction l as [|x l IH]; [reflexivity|].
  cbn [flat_map forallb]. now rewrite forallb_app, IH.
Qed.

(** X4. The visitor goes through a tree exactly when every specifier in it
    is rewritten, and what it throws otherwise is what the rewriting of
    one of the specifiers of the tree throws. *)
Theorem visitor_fails_only_on_a_specifier
        (__dirname cwd : string) (fs : Fs.Entry) (fileName : string)
        (node : Ts.Node) :
  isOk (visitor __dirname cwd fs fileName node)
  = forallb (fun text => isOk (rewriteSpecifier __dirname cwd fs fileName text))
            (specifiers node)
  /\ (forall t, visitor __dirname cwd fs fileName node = Throw t ->
                exists text, In text (specifiers node)
                             /\ rewriteSpecifier __dirname cwd fs fileName text
                                = Throw t).
Proof.
  induction node as [d m ic spec ac|d m ty ec spec ac|kind text children IH]
    using Node_nested_ind; cbn [visitor specifiers].
  - destruct (Ts.stringLiteralLikeText spec) as [text|];
      [|split; [reflexivity|discriminate]].
    cbn [forallb]. rewrite andb_true_r.
    destruct (rewriteSpecifier _ _ _ _ text) eqn:Hr;
      split; try reflexivity; try discriminate.
    intros t' [= <-]. exists text. split; [now left|assumption].
  - destruct spec as [spec|]; [|split; [reflexivity|discriminate]].
    destruct (Ts.stringLiteralLikeText spec) as [text|];
      [|split; [reflexivity|discriminate]].
    cbn [forallb]. rewrite andb_true_r.
    destruct (rewriteSpecifier _ _ _ _ text) eqn:Hr;
      split; try reflexivity; try discriminate.
    intros t' [= <-]. exists text. split; [now left|assumption].
  - rewrite Forall_forall in IH. split.
    + rewrite forallb_flat_map.
      transitivity (isOk (mapM (visitor __dirname cwd fs fileName) children));
        [now destruct (mapM (visitor __dirname cwd fs fileName) children)|].
      rewrite mapM_isOk. apply forallb_agree.
      intros c Hc. apply (IH c Hc).
    + intros t.
      destruct (mapM (visitor __dirname cwd fs fileName) children) eqn:Hm;
        [discriminate|].
      intros [= <-]. apply mapM_throw_inv in Hm as (c & Hc & Hthrow).
      destruct (proj2 (IH c Hc) _ Hthrow) as (text' & Hin & Hr).
      exists text'. split; [|assumption]. apply in_flat_map. now exists c.
Qed.

Lemma Forall2_map_eq {A B : Type} (g : A -> B) (l l' : list A) :
  Forall2 (fun x y => g y = g x) l l' -> map g l' = map g l.
Proof. induction 1; cbn [map]; congruence. Qed.

(** X5. Whatever the visitor returns differs from the tree it was given in
    nothing but the specifiers and assert clauses of the declarations it
    rewrites: with these blanked, the two trees are equal, node for node
    and in the same order. *)
Theorem visitor_touches_only_specifiers
        (__dirname cwd : string) (fs : Fs.Entry) (fileName : string)
        (node node' : Ts.Node) :
  visitor __dirname cwd fs fileName node = Ok node' ->
  eraseSpecifiers node' = eraseSpecifiers node.
Proof.
  revert node'.
  induction node as [d m ic spec ac|d m ty ec spec ac|kind text children IH]
    using Node_nested_ind; intros node'; cbn [visitor].
  - cbn [eraseSpecifiers].
    destruct (Ts.stringLiteralLikeText spec) as [text|] eqn:Hlit.
    + destruct (rewriteSpecifier _ _ _ _ text); [|discriminate].
      now intros [= <-].
    + intros [= <-]. cbn [eraseSpecifiers]. now rewrite Hlit.
  - destruct spec as [spec|]; [|now intros [= <-]].
    cbn [eraseSpecifiers].
    destruct (Ts.stringLiteralLikeText spec) as [text|] eqn:Hlit.
    + destruct (rewriteSpecifier _ _ _ _ text); [|discriminate].
      now intros [= <-].
    + intros [= <-]. cbn [eraseSpecifiers]. now rewrite Hlit.
  - destruct (mapM (visitor __dirname cwd fs fileName) children)
      as [children'|] eqn:Hm; [|discriminate].
    intros [= <-]. cbn [eraseSpecifiers]. f_equal.
    apply Forall2_map_eq. apply mapM_Forall2 in Hm.
    clear -IH Hm. induction Hm as [|c c' cs cs' Hc _ IHm]; constructor.
    + inversion IH; subst. auto.
    + inversion IH; subst. auto.
Qed.

Lemma visitor_touches_only_specifiers_witness :
  eraseSpecifiers
    (Ts.OtherNode "SourceFile" ""
       [Ts.ImportDeclaration None None (Some "x")
          (Ts.StringLiteral "./util.ts" true) None])
  = eraseSpecifiers (sampleParser "" "./util").
Proof.
  exact (visitor_touches_only_specifiers sampleDirname sampleCwd sampleFs
           "/repo/packages/core/src/index.ts" (sampleParser "" "./util") _
           eq_refl).
Defined.

(** ** Enumeration on a well-formed tree *)

Lemma nameOk_clean (name : string) : nameOk name = true -> Path.clean name.
Proof.
  unfold nameOk. rewrite !andb_true_iff, !negb_true_iff.
  intros [[[H1 H2] H3] _]. repeat split; now apply String.eqb_neq.
Qed.

Lemma nameOk_noSlash (name : string) : nameOk name = true -> Path.noSlash name.
Proof.
  unfold nameOk. rewrite !andb_true_iff. intros [_ H].
  induction name as [|c name IH]; [reflexivity|].
  cbn [list_ascii_of_string forallb] in H.
  apply andb_true_iff in H as [Hc Hrest]. apply negb_true_iff in Hc.
  apply PathFacts.noSlash_cons; auto.
Qed.

Lemma endsWith_slash_noSlash (name : string) :
  Path.noSlash name -> JS.endsWith "/" name = false.
Proof.
  induction name as [|c name IH]; intros Hn; [reflexivity|].
  apply PathFacts.noSlash_cons_inv in Hn as [Hc Hn]. cbn [JS.endsWith].
  rewrite (IH Hn).
  destruct (String.eqb_spec "/" (String c name)) as [E|_]; [|reflexivity].
  injection E as <- _. discriminate.
Qed.

(** A proper name joined to an absolute directory: one segment more. *)
Lemma join_child (d name : string) :
  Path.isAbsolute d = true -> Path.clean name -> Path.noSlash name ->
  Path.join [d; name] = "/" ++ Path.unsplit (Path.absSegments d ++ [name]).
Proof.
  intros Hd Hc Hn. pose proof Hc as (Hne & _ & _).
  destruct d as [|c0 d']; [discriminate|].
  assert (c0 = "/"%char) by now apply Ascii.eqb_eq. subst c0.
  unfold Path.join. cbn [filter String.eqb negb].
  apply String.eqb_neq in Hne. rewrite Hne. cbn [negb].
  change (Path.unsplit [String "/" d'; name])
    with (String "/" d' ++ String "/" name).
  unfold Path.normalize. cbn [append String.eqb].
  change (Path.isAbsolute (String "/" (d' ++ String "/" name))) with true.
  change (String "/" (d' ++ String "/" name))
    with (String "/" d' ++ String "/" name).
  rewrite PathFacts.endsWith_slash_false; [|discriminate|].
  2:{ cbn [JS.endsWith]. rewrite (endsWith_slash_noSlash _ Hn).
      destruct (String.eqb_spec "/" (String "/" name)) as [E|_]; [|reflexivity].
      injection E as <-. discriminate. }
  cbn [negb]. unfold Path.normalizeString, Path.normSegments.
  rewrite PathFacts.split_app_slash, Hn, fold_left_app.
  cbn [fold_left]. rewrite PathFacts.normStep_clean by assumption.
  cbn [rev]. fold (Path.normSegments false (Path.split (String "/" d'))).
  fold (Path.absSegments (String "/" d')).
  destruct (String.eqb_spec
              (Path.unsplit (Path.absSegments (String "/" d') ++ [name])) "")
    as [E|_]; [|reflexivity].
  exfalso. apply String.eqb_neq in Hne.
  pose proof (PathFacts.absSegments_clean (String "/" d')) as Hcl.
  destruct (Path.absSegments (String "/" d')) as [|x X]; [now apply Hne|].
  inversion Hcl as [|? ? (Hx & _) _]; subst.
  now apply (PathFacts.unsplit_nonempty x (X ++ [name])).
Qed.

Lemma join_child_segments (d name : string) :
  Path.isAbsolute d = true -> nameOk name = true ->
  Path.absSegments (Path.join [d; name]) = (Path.absSegments d ++ [name])%list.
Proof.
  intros Hd Hok. pose proof (nameOk_clean _ Hok) as Hc.
  pose proof (nameOk_noSlash _ Hok) as Hn.
  rewrite join_child by assumption.
  apply PathFacts.absSegments_canonical.
  - apply Forall_app. split; [apply PathFacts.absSegments_clean|].
    constructor; [assumption|constructor].
  - apply Forall_app. split; [apply PathFacts.absSegments_noSlash|].
    constructor; [assumption|constructor].
Qed.

Lemma stat_absolute (fs : Fs.Entry) (cwd p : string) :
  Path.isAbsolute p = true ->
  Fs.stat fs cwd p = Fs.lookup fs (Path.absSegments p).
Proof.
  intros Hp. unfold Fs.stat. rewrite PathFacts.resolve_abs by assumption.
  rewrite PathFacts.segments_canonical;
    [reflexivity|apply PathFacts.absSegments_clean
     |apply PathFacts.absSegments_noSlash].
Qed.

Lemma lookup_app (entry : Fs.Entry) (a b : list string) :
  Fs.lookup entry (a ++ b)
  = match Fs.lookup entry a with
    | Some below => Fs.lookup below b
    | None => None
    end.
Proof.
  revert entry. induction a as [|s a IH]; intros entry; [reflexivity|].
  cbn [app Fs.lookup]. destruct entry as [|es]; [reflexivity|].
  destruct (Fs.assoc s es); [apply IH|reflexivity].
Qed.

Lemma assoc_unique {A : Type} (name : string) (v : A) (l : list (string * A)) :
  uniqueNames (map fst l) = true -> In (name, v) l -> Fs.assoc name l = Some v.
Proof.
  induction l as [|[k w] l IH]; intros Hu Hin; [contradiction|].
  cbn [map fst uniqueNames] in Hu. apply andb_true_iff in Hu as [Hk Hu].
  cbn [Fs.assoc]. destruct Hin as [[= -> ->]|Hin].
  - now rewrite String.eqb_refl.
  - destruct (String.eqb_spec name k) as [->|_]; [|now apply IH].
    exfalso. apply negb_true_iff in Hk.
    assert (Hex : existsb (String.eqb k) (map fst l) = true).
    { apply existsb_exists. exists k. split; [|apply String.eqb_refl].
      apply in_map_iff. now exists (k, v). }
    congruence.
Qed.

Lemma wellFormed_child (es : list (string * Fs.Entry)) (name : string)
      (child : Fs.Entry) :
  wellFormed (Fs.Dir es) = true -> In (name, child) es ->
  nameOk name = true /\ wellFormed child = true
  /\ Fs.assoc name es = Some child.
Proof.
  cbn [wellFormed]. intros H Hin. apply andb_true_iff in H as [Hu Hall].
  rewrite forallb_forall in Hall. specialize (Hall _ Hin).
  apply andb_true_iff in Hall as [Hn Hw]. repeat split; try assumption.
  now apply assoc_unique.
Qed.

Lemma assoc_In {A : Type} (name : string) (v : A) (l : list (string * A)) :
  Fs.assoc name l = Some v -> In (name, v) l.
Proof.
  induction l as [|[k w] l IH]; cbn [Fs.assoc]; [discriminate|].
  destruct (String.eqb_spec name k) as [->|_].
  - intros [= ->]. now left.
  - intros H. right. now apply IH.
Qed.

Lemma wellFormed_lookup (entry below : Fs.Entry) (segs : list string) :
  wellFormed entry = true -> Fs.lookup entry segs = Some below ->
  wellFormed below = true.
Proof.
  revert entry. induction segs as [|s segs IH]; intros entry Hw; cbn [Fs.lookup].
  - now intros [= <-].
  - destruct entry as [|es]; [discriminate|].
    destruct (Fs.assoc s es) as [child|] eqn:Hs; [|discriminate].
    apply IH. apply assoc_In in Hs.
    now destruct (wellFormed_child es s child Hw Hs) as (_ & Hc & _).
Qed.


Lemma keepEntry_notExcluded (root : bool) (name : string) :
  keepEntry root name = true ->
  notExcludedFile name
  /\ (root = true -> JS.arrayIncludes excludedDirs name = false).
Proof.
  unfold keepEntry, notExcludedFile. intros H.
  apply andb_true_iff in H as [Hf Hd]. apply negb_true_iff in Hf.
  split; [assumption|]. intros ->. cbn [negb orb] in Hd.
  now apply negb_true_iff in Hd.
Qed.

Lemma keepEntry_of_notExcluded (name : string) :
  notExcludedFile name -> keepEntry false name = true.
Proof. unfold keepEntry, notExcludedFile. now intros ->. Qed.

Lemma getFilesEntry_sound (entry : Fs.Entry) (fullPath : string) :
  wellFormed entry = true -> Path.isAbsolute fullPath = true ->
  Forall (fun file =>
            exists names content,
              Path.absSegments file = (Path.absSegments fullPath ++ names)%list
              /\ Fs.lookup entry names = Some (Fs.File content)
              /\ Forall notExcludedFile names)
         (getFilesEntry fullPath entry).
Proof.
  revert fullPath.
  induction entry as [content|entries IH] using Entry_nested_ind;
    intros fullPath Hw Habs; cbn [getFilesEntry].
  - constructor; [|constructor]. exists [], content.
    rewrite app_nil_r. repeat split. constructor.
  - apply Forall_flat_map. rewrite Forall_forall in IH |- *.
    intros [name child] Hin. cbn [fst snd].
    destruct (keepEntry false name) eqn:Hkeep; [|constructor].
    destruct (wellFormed_child _ _ _ Hw Hin) as (Hname & Hchild & Hassoc).
    specialize (IH _ Hin (Path.join [fullPath; name]) Hchild
                   (join_isAbsolute _ _ Habs)).
    cbn [snd] in IH. eapply Forall_impl; [|exact IH].
    intros file (names & content & Hsegs & Hlook & Hnames).
    exists (name :: names), content. repeat split.
    + rewrite Hsegs, join_child_segments by assumption.
      now rewrite <- app_assoc.
    + cbn [Fs.lookup]. now rewrite Hassoc.
    + constructor; [now apply (keepEntry_notExcluded false)|assumption].
Qed.

Lemma readdirEntries_lookup (fs : Fs.Entry) (cwd dir : string)
      (es : list (string * Fs.Entry)) :
  Path.isAbsolute dir = true ->
  Fs.readdirEntries fs cwd dir = Ok es ->
  Fs.lookup fs (Path.absSegments dir) = Some (Fs.Dir es).
Proof.
  intros Habs. unfold Fs.readdirEntries. rewrite stat_absolute by assumption.
  destruct (Fs.lookup fs (Path.absSegments dir)) as [[|es']|];
    (discriminate || now intros [= ->]).
Qed.

Lemma getFiles_sound (cwd : string) (fs : Fs.Entry) (dir : string) (root : bool)
      (files : list string) :
  wellFormed fs = true -> Path.isAbsolute dir = true ->
  getFiles cwd fs dir root = Ok files ->
  Forall (fun file =>
            Path.isAbsolute file = true
            /\ exists names content,
                 Path.absSegments file = (Path.absSegments dir ++ names)%list
                 /\ Fs.lookup fs (Path.absSegments dir ++ names)
                    = Some (Fs.File content)
                 /\ Forall notExcludedFile names
                 /\ names <> []
                 /\ (root = true -> startsOutsideExcludedDirs names))
         files.
Proof.
  intros Hw Habs Hget.
  pose proof (getFiles_isAbsolute _ _ _ _ _ Habs Hget) as Hall.
  unfold getFiles in Hget.
  destruct (Fs.readdirEntries fs cwd dir) as [es|] eqn:Hes; [|discriminate].
  cbn [bind] in Hget. injection Hget as <-.
  apply readdirEntries_lookup in Hes; [|assumption].
  pose proof (wellFormed_lookup _ _ _ Hw Hes) as Hwd.
  rewrite Forall_forall in Hall |- *. intros file Hin.
  split; [now apply Hall|].
  apply in_flat_map in Hin as ([name child] & Hne & Hin). cbn [fst snd] in Hin.
  apply filter_In in Hne as [Hne Hkeep]. cbn [fst] in Hkeep.
  destruct (wellFormed_child _ _ _ Hwd Hne) as (Hname & Hchild & Hassoc).
  pose proof (getFilesEntry_sound child (Path.join [dir; name]) Hchild
                (join_isAbsolute _ _ Habs)) as Hsound.
  rewrite Forall_forall in Hsound.
  destruct (Hsound _ Hin) as (names & content & Hsegs & Hlook & Hnames).
  destruct (keepEntry_notExcluded _ _ Hkeep) as [Hfile Hdirs].
  exists (name :: names), content.
  rewrite join_child_segments, <- app_assoc in Hsegs by assumption.
  repeat split.
  - exact Hsegs.
  - rewrite lookup_app, Hes. cbn [Fs.lookup]. now rewrite Hassoc.
  - now constructor.
  - discriminate.
  - intros Hroot. exists name, names. split; [reflexivity|now apply Hdirs].
Qed.



(** X7. On a well-formed tree every path [getFiles] returns lies below the
    listed directory, none of the names on the way from that directory to
    the file is an excluded file name, and when the directory is listed as
    the root of a package the first of them is not an excluded directory
    name either. *)
Theorem getFiles_skips_excluded_names
        (cwd : string) (fs : Fs.Entry) (dir : string) (root : bool)
        (files : list string) :
  wellFormed fs = true -> Path.isAbsolute dir = true ->
  getFiles cwd fs dir root = Ok files ->
  Forall (fun file =>
            exists names,
              Path.absSegments file = (Path.absSegments dir ++ names)%list
              /\ names <> []
              /\ Forall notExcludedFile names
              /\ (root = true -> startsOutsideExcludedDirs names))
         files.
Proof.
  intros Hw Habs Hget.
  eapply Forall_impl; [|exact (getFiles_sound _ _ _ _ _ Hw Habs Hget)].
  intros file (_ & names & content & Hsegs & _ & Hnames & Hne & Hroot).
  now exists names.
Qed.

Lemma getFiles_skips_excluded_names_witness :
  Forall (fun file =>
            exists names,
              Path.absSegments file = (["repo"; "packages"; "core"] ++ names)%list
              /\ names <> []
              /\ Forall notExcludedFile names
              /\ (true = true -> startsOutsideExcludedDirs names))
         ["/repo/packages/core/src/index.ts";
          "/repo/packages/core/src/util.ts";
          "/repo/packages/core/src/data.json"].
Proof.
  exact (getFiles_skips_excluded_names sampleCwd sampleFsSmall
           "/repo/packages/core" true _ eq_refl eq_refl eq_refl).
Defined.

Lemma getFilesEntry_complete (names : list string) :
  forall (entry : Fs.Entry) (fullPath content : string),
    wellFormed entry = true -> Path.isAbsolute fullPath = true ->
    names <> [] ->
    Fs.lookup entry names = Some (Fs.File content) ->
    Forall notExcludedFile names ->
    In ("/" ++ Path.unsplit (Path.absSegments fullPath ++ names))
       (getFilesEntry fullPath entry).
Proof.
  induction names as [|name rest IH];
    intros entry fullPath content Hw Habs Hne Hlook Hnames; [contradiction|].
  destruct entry as [|es]; [discriminate|].
  cbn [Fs.lookup] in Hlook.
  destruct (Fs.assoc name es) as [child|] eqn:Hassoc; [|discriminate].
  apply assoc_In in Hassoc.
  destruct (wellFormed_child _ _ _ Hw Hassoc) as (Hname & Hchild & _).
  inversion Hnames as [|? ? Hfile Hrest]; subst.
  cbn [getFilesEntry]. apply in_flat_map. exists (name, child).
  split; [assumption|]. cbn [fst snd].
  rewrite (keepEntry_of_notExcluded _ Hfile).
  destruct rest as [|name' rest'].
  - cbn [Fs.lookup] in Hlook. injection Hlook as ->. cbn [getFilesEntry].
    left. apply join_child; [assumption|now apply nameOk_clean
                                       |now apply nameOk_noSlash].
  - specialize (IH child (Path.join [fullPath; name]) content Hchild
                   (join_isAbsolute _ _ Habs)).
    rewrite join_child_segments, <- app_assoc in IH by assumption.
    apply IH; [discriminate|assumption|assumption].
Qed.

(** X8. On a well-formed tree [getFiles] leaves nothing out: a regular file
    below the listed directory is returned, under its resolved path, when
    none of the names that lead to it is an excluded file name and, at the
    root of a package, the first of them is not an excluded directory
    name. *)
Theorem getFiles_returns_every_kept_file
        (cwd : string) (fs : Fs.Entry) (dir : string) (root : bool)
        (files names : list string) (content : string) :
  wellFormed fs = true -> Path.isAbsolute dir = true ->
  getFiles cwd fs dir root = Ok files ->
  Fs.lookup fs (Path.absSegments dir ++ names) = Some (Fs.File content) ->
  names <> [] ->
  Forall notExcludedFile names ->
  (root = true -> startsOutsideExcludedDirs names) ->
  In ("/" ++ Path.unsplit (Path.absSegments dir ++ names)) files.
Proof.
  intros Hw Habs Hget Hlook Hne Hnames Hroot.
  unfold getFiles in Hget.
  destruct (Fs.readdirEntries fs cwd dir) as [es|] eqn:Hes; [|discriminate].
  cbn [bind] in Hget. injection Hget as <-.
  apply readdirEntries_lookup in Hes; [|assumption].
  pose proof (wellFormed_lookup _ _ _ Hw Hes) as Hwd.
  rewrite lookup_app, Hes in Hlook.
  destruct names as [|name rest]; [contradiction|].
  cbn [Fs.lookup] in Hlook.
  destruct (Fs.assoc name es) as [child|] eqn:Hassoc; [|discriminate].
  apply assoc_In in Hassoc.
  destruct (wellFormed_child _ _ _ Hwd Hassoc) as (Hname & Hchild & _).
  inversion Hnames as [|? ? Hfile Hrest]; subst.
  apply in_flat_map. exists (name, child). split.
  - apply filter_In. split; [assumption|]. cbn [fst].
    unfold keepEntry. unfold notExcludedFile in Hfile. rewrite Hfile.
    destruct root; [|reflexivity].
    destruct (Hroot eq_refl) as (first & rest' & [= <- <-] & Hdir).
    now rewrite Hdir.
  - cbn [fst snd]. destruct rest as [|name' rest'].
    + destruct child as [content'|]; [|discriminate]. cbn [getFilesEntry].
      left. apply join_child; [assumption|now apply nameOk_clean
                                         |now apply nameOk_noSlash].
    + pose proof (getFilesEntry_complete (name' :: rest') child
                    (Path.join [dir; name]) content Hchild
                    (join_isAbsolute _ _ Habs)) as Hc.
      rewrite join_child_segments, <- app_assoc in Hc by assumption.
      apply Hc; [discriminate|assumption|assumption].
Qed.

Lemma getFiles_returns_every_kept_file_witness :
  In "/repo/packages/core/src/data.json"
     ["/repo/packages/core/src/index.ts";
      "/repo/packages/core/src/util.ts";
      "/repo/packages/core/src/data.json"].
Proof.
  apply (getFiles_returns_every_kept_file sampleCwd sampleFsSmall
           "/repo/packages/core" true _ ["src"; "data.json"] "{}"
           eq_refl eq_refl eq_refl eq_refl).
  - discriminate.
  - repeat constructor.
  - intros _. exists "src", ["data.json"]. split; reflexivity.
Defined.

(** ** What [getAllFiles] and [build] produce *)

Lemma Forall2_map_paths {A B C : Type} (f : A -> Result B) (g : B -> C)
      (h : A -> C) (l : list A) (ys : list B) :
  (forall x y, f x = Ok y -> g y = h x) ->
  Forall2 (fun x y => f x = Ok y) l ys -> map g ys = map h l.
Proof.
  intros Hf. induction 1 as [|x y l ys Hxy _ IH]; [reflexivity|].
  cbn [map]. now rewrite (Hf x y Hxy), IH.
Qed.

(** X9. When [getAllFiles] succeeds, its result is one loaded file for each
    enumerated file, in the order of the enumeration and under the output
    path of that file, followed by one companion module [mod.ts] for each
    package, in the order of the packages, with the fixed text. *)
Theorem getAllFiles_shape
        (__dirname cwd : string) (createSourceFile : string -> string -> Ts.Node)
        (printFile : Ts.Node -> string) (fs : Fs.Entry)
        (out : list LoadedFile) :
  getAllFiles __dirname cwd createSourceFile printFile fs = Ok out ->
  exists projects results loaded,
    getPackages __dirname cwd fs = Ok projects
    /\ mapM (fun dir => getFiles cwd fs
                          (Path.join [packageDir __dirname cwd; dir]) true)
            projects = Ok results
    /\ out = (loaded ++ map (companionModule __dirname cwd) projects)%list
    /\ map path loaded = map (loadFile_newPath __dirname cwd) (concat results).
Proof.
  unfold getAllFiles.
  destruct (getPackages __dirname cwd fs) as [projects|]; [|discriminate].
  cbn [bind].
  destruct (mapM _ projects) as [results|] eqn:Hr; [|discriminate].
  cbn [bind].
  destruct (mapM _ (concat results)) as [loaded|] eqn:Hl; [|discriminate].
  cbn [bind]. intros [= <-].
  exists projects, results, loaded.
  split; [reflexivity|]. split; [exact Hr|]. split; [reflexivity|].
  apply mapM_Forall2 in Hl.
  eapply Forall2_map_paths; [|exact Hl].
  intros file lf Hload. now apply loadFile_path in Hload.
Qed.

Lemma getAllFiles_shape_witness :
  exists projects results loaded,
    getPackages sampleDirname sampleCwd sampleFsSmall = Ok projects
    /\ mapM (fun dir => getFiles sampleCwd sampleFsSmall
                          (Path.join [packageDir sampleDirname sampleCwd; dir])
                          true)
            projects = Ok results
    /\ [ {| path := "/repo/packages/deno/packages/core/index.ts";
            content := "// @ts-nocheck" ++ newline ++ "./util.ts" |};
         {| path := "/repo/packages/deno/packages/core/util.ts";
            content := "// @ts-nocheck" ++ newline
                       ++ "https://cdn.skypack.dev/graphql?dts" |};
         {| path := "/repo/packages/deno/packages/core/data.json";
            content := "{}" |};
         {| path := "/repo/packages/deno/packages/core/mod.ts";
            content := modFile |} ]
       = (loaded ++ map (companionModule sampleDirname sampleCwd) projects)%list
    /\ map path loaded
       = map (loadFile_newPath sampleDirname sampleCwd) (concat results).
Proof.
  exact (getAllFiles_shape sampleDirname sampleCwd sampleParser samplePrinter
           sampleFsSmall _ eq_refl).
Defined.

Lemma existsb_filter_false {A : Type} (p q : A -> bool) (l : list A) :
  existsb p l = false -> existsb p (filter q l) = false.
Proof.
  induction l as [|x l IH]; [reflexivity|]. cbn [existsb filter].
  intros H. apply orb_false_iff in H as [Hx Hl].
  destruct (q x); cbn [existsb]; [rewrite Hx|]; now apply IH.
Qed.







(** ** The output path of a source file of a package *)

Lemma substring_all (s : string) : String.substring 0 (String.length s) s = s.
Proof. induction s as [|c s IH]; [reflexivity|]. cbn. now rewrite IH. Qed.

Lemma prefix_src_extended (c : ascii) (a b : string) :
  String.prefix "/src" (String c a) = false ->
  String.prefix "/src" (String c a ++ String "/" b) = false.
Proof.
  assert (Hsep : forall (x : ascii) (p rest : string),
             x <> "/"%char ->
             String.prefix (String x p) (String "/" rest) = false).
  { intros x p rest Hx. cbn [String.prefix].
    destruct (ascii_dec x "/"); [contradiction|reflexivity]. }
  cbn [append String.prefix].
  destruct (ascii_dec "/" c); [|reflexivity].
  destruct a as [|c1 a]; [intros _; now apply Hsep|]. cbn [append String.prefix].
  destruct (ascii_dec "s" c1); [|reflexivity].
  destruct a as [|c2 a]; [intros _; now apply Hsep|]. cbn [append String.prefix].
  destruct (ascii_dec "r" c2); [|reflexivity].
  destruct a as [|c3 a]; [intros _; now apply Hsep|]. cbn [append String.prefix].
  destruct (ascii_dec "c" c3); [|reflexivity].
  destruct a; intros H; discriminate H.
Qed.

Lemma replace_unfold (pat rep s : string) :
  JS.replace pat rep s
  = if String.prefix pat s
    then rep ++ String.substring (String.length pat)
                  (String.length s - String.length pat) s
    else match s with
         | EmptyString => EmptyString
         | String c rest => String c (JS.replace pat rep rest)
         end.
Proof. destruct s; reflexivity. Qed.

(** The first [/src] of a text that has none before it. *)
Lemma replace_first_src (a b : string) :
  JS.includes "/src" a = false ->
  JS.replace "/src" "" (a ++ "/src" ++ b) = a ++ b.
Proof.
  induction a as [|c a IH]; intros Hnone.
  - rewrite replace_unfold.
    replace (String.prefix "/src" ("" ++ "/src" ++ b)) with true
      by (destruct b; reflexivity).
    cbn [append String.length Nat.sub String.substring].
    rewrite Nat.sub_0_r. apply substring_all.
  - cbn [JS.includes] in Hnone.
    destruct (String.prefix "/src" (String c a)) eqn:Hp; [discriminate|].
    rewrite replace_unfold.
    change (String c a ++ "/src" ++ b)
      with (String c a ++ String "/" ("src" ++ b)).
    rewrite prefix_src_extended by assumption.
    cbn [append]. f_equal. now apply IH.
Qed.

Lemma unsplit_app (x y : list string) :
  x <> [] -> y <> [] ->
  Path.unsplit (x ++ y) = Path.unsplit x ++ "/" ++ Path.unsplit y.
Proof.
  induction x as [|a [|b x] IH]; intros Hx Hy; [contradiction| |].
  - destruct y; [contradiction|reflexivity].
  - change (Path.unsplit ((a :: b :: x) ++ y))
      with (a ++ "/" ++ Path.unsplit ((b :: x) ++ y)).
    rewrite IH by (assumption || discriminate).
    change (Path.unsplit (a :: b :: x)) with (a ++ "/" ++ Path.unsplit (b :: x)).
    now rewrite !PathFacts.append_assoc.
Qed.

Lemma common_app (p l : list string) : Path.common p (p ++ l) = List.length p.
Proof.
  induction p as [|x p IH]; [now destruct l|].
  cbn [app Path.common List.length]. now rewrite String.eqb_refl, IH.
Qed.

Lemma endsWith_slash_separator (u : string) :
  u <> "" -> JS.endsWith "/" u = false -> JS.endsWith "/" (String "/" u) = false.
Proof.
  intros Hu H. cbn [JS.endsWith]. rewrite H.
  destruct (String.eqb_spec "/" (String "/" u)) as [E|_]; [|reflexivity].
  injection E as <-. contradiction.
Qed.

Lemma endsWith_slash_unsplit (names : list string) :
  names <> [] -> Forall Path.clean names -> Forall Path.noSlash names ->
  Path.unsplit names <> "" /\ JS.endsWith "/" (Path.unsplit names) = false.
Proof.
  induction names as [|x [|y r] IH]; intros Hne Hc Hn; [contradiction| |].
  - inversion Hc as [|? ? (Hx & _) _]; inversion Hn; subst.
    split; [assumption|now apply endsWith_slash_noSlash].
  - inversion Hc as [|? ? (Hx & _) Hc']; inversion Hn as [|? ? _ Hn']; subst.
    destruct (IH ltac:(discriminate) Hc' Hn') as [Hu He].
    split; [now apply PathFacts.unsplit_nonempty|].
    change (Path.unsplit (x :: y :: r))
      with (x ++ String "/" (Path.unsplit (y :: r))).
    apply PathFacts.endsWith_slash_false; [discriminate|].
    now apply endsWith_slash_separator.
Qed.

(** Proper names joined to an absolute directory. *)
Lemma join_names (d : string) (names : list string) :
  Path.isAbsolute d = true -> names <> [] ->
  Forall Path.clean names -> Forall Path.noSlash names ->
  Path.join (d :: names)
  = "/" ++ Path.unsplit (Path.absSegments d ++ names).
Proof.
  intros Hd Hne Hc Hn.
  destruct (endsWith_slash_unsplit names Hne Hc Hn) as [Hu He].
  destruct d as [|c0 d']; [discriminate|].
  assert (c0 = "/"%char) by now apply Ascii.eqb_eq. subst c0.
  unfold Path.join. cbn [filter String.eqb negb].
  replace (filter (fun a => negb (String.eqb a "")) names) with names.
  2:{ symmetry. apply forallb_filter_id, forallb_forall. intros s Hs.
      rewrite Forall_forall in Hc. destruct (Hc s Hs) as (H & _).
      apply String.eqb_neq in H. now rewrite H. }
  destruct names as [|n names']; [contradiction|].
  change (Path.unsplit (String "/" d' :: n :: names'))
    with (String "/" d' ++ String "/" (Path.unsplit (n :: names'))).
  unfold Path.normalize. cbn [append String.eqb].
  change (Path.isAbsolute
            (String "/" (d' ++ String "/" (Path.unsplit (n :: names')))))
    with true.
  change (String "/" (d' ++ String "/" (Path.unsplit (n :: names'))))
    with (String "/" d' ++ String "/" (Path.unsplit (n :: names'))).
  rewrite PathFacts.endsWith_slash_false;
    [|discriminate|now apply endsWith_slash_separator].
  cbn [negb]. unfold Path.normalizeString, Path.normSegments.
  rewrite PathFacts.split_app_slash, PathFacts.split_unsplit
    by (assumption || discriminate).
  rewrite fold_left_app, PathFacts.fold_clean by assumption.
  rewrite rev_app_distr, rev_involutive.
  fold (Path.normSegments false (Path.split (String "/" d'))).
  fold (Path.absSegments (String "/" d')).
  destruct (String.eqb_spec
              (Path.unsplit (Path.absSegments (String "/" d') ++ n :: names'))
              "") as [E|_]; [|reflexivity].
  exfalso.
  pose proof (PathFacts.absSegments_clean (String "/" d')) as Hcl.
  destruct (Path.absSegments (String "/" d')) as [|x X]; [now apply Hu|].
  inversion Hcl as [|? ? (Hx & _) _]; subst.
  now apply (PathFacts.unsplit_nonempty x (X ++ n :: names')).
Qed.

Lemma Forall_nameOk (names : list string) :
  forallb nameOk names = true ->
  Forall Path.clean names /\ Forall Path.noSlash names.
Proof.
  rewrite forallb_forall. intros H. split; apply Forall_forall; intros s Hs.
  - now apply nameOk_clean, H.
  - now apply nameOk_noSlash, H.
Qed.

(** X11. A file below the directory [src] of a package, at
    [<source root>/<package>/src/<rest>], gets the output path
    [<output root>/<package>/<rest>], as long as the text [/src] does not
    occur in the output directory of the package itself. *)
Theorem output_path_of_package_source
        (__dirname cwd pkg : string) (rest : list string) :
  Path.isAbsolute __dirname = true ->
  forallb nameOk (pkg :: rest) = true ->
  JS.includes "/src" (Path.join [targetDir __dirname cwd; pkg]) = false ->
  loadFile_newPath __dirname cwd
    (Path.join (packageDir __dirname cwd :: pkg :: "src" :: rest))
  = Path.join (targetDir __dirname cwd :: pkg :: rest).
Proof.
  intros Habs Hnames Hnone.
  assert (Hpkg : Path.isAbsolute (packageDir __dirname cwd) = true)
    by now apply PathFacts.resolve_isAbsolute.
  assert (Htgt : Path.isAbsolute (targetDir __dirname cwd) = true)
    by now apply PathFacts.resolve_isAbsolute.
  assert (Hall : forallb nameOk (pkg :: "src" :: rest) = true).
  { cbn [forallb] in *. apply andb_true_iff in Hnames as [-> ->].
    reflexivity. }
  destruct (Forall_nameOk _ Hall) as [Hc Hn].
  destruct (Forall_nameOk _ Hnames) as [Hc' Hn'].
  cbn [forallb] in Hnames. apply andb_true_iff in Hnames as [Hpkgname _].
  set (P := Path.absSegments (packageDir __dirname cwd)).
  set (T := Path.absSegments (targetDir __dirname cwd)).
  unfold loadFile_newPath.
  rewrite (join_names _ (pkg :: "src" :: rest)) by (assumption || discriminate).
  rewrite (join_names _ (pkg :: rest)) by (assumption || discriminate).
  rewrite (join_child _ pkg) in Hnone
    by (assumption || now apply nameOk_clean || now apply nameOk_noSlash).
  fold P. fold T. fold T in Hnone.
  assert (HcP : Forall Path.clean (P ++ pkg :: "src" :: rest)%list)
    by (apply Forall_app; split; [apply PathFacts.absSegments_clean|assumption]).
  assert (HnP : Forall Path.noSlash (P ++ pkg :: "src" :: rest)%list)
    by (apply Forall_app; split; [apply PathFacts.absSegments_noSlash|assumption]).
  rewrite PathFacts.relative_abs by (assumption || reflexivity).
  rewrite PathFacts.absSegments_canonical by assumption.
  fold P. rewrite common_app, Nat.sub_diag, skipn_app, skipn_all, Nat.sub_diag.
  cbn [repeat app skipn].
  destruct (endsWith_slash_unsplit (pkg :: "src" :: rest)
              ltac:(discriminate) Hc Hn) as [Hu _].
  rewrite PathFacts.resolve_abs_rel;
    [|assumption|assumption
     |apply PathFacts.unsplit_relative_head;
      [now apply nameOk_clean in Hpkgname as (H & _)
      |now apply nameOk_noSlash]].
  rewrite PathFacts.split_unsplit by (assumption || discriminate).
  rewrite PathFacts.fold_clean by assumption.
  rewrite rev_app_distr, !rev_involutive. fold T.
  replace (T ++ pkg :: "src" :: rest)%list
    with ((T ++ [pkg]) ++ "src" :: rest)%list
    by (now rewrite <- app_assoc).
  replace (T ++ pkg :: rest)%list with ((T ++ [pkg]) ++ rest)%list
    by (now rewrite <- app_assoc).
  assert (HT : (T ++ [pkg])%list <> []) by (now destruct T).
  rewrite unsplit_app by (assumption || discriminate).
  destruct rest as [|r rest'].
  - rewrite app_nil_r.
    change ("/" ++ Path.unsplit (T ++ [pkg]) ++ "/" ++ Path.unsplit ["src"])
      with ("/" ++ Path.unsplit (T ++ [pkg]) ++ "/src" ++ "").
    rewrite <- PathFacts.append_assoc, replace_first_src by assumption.
    now rewrite PathFacts.append_nil_r.
  - rewrite (unsplit_app (T ++ [pkg])) by (assumption || discriminate).
    change (Path.unsplit ("src" :: r :: rest'))
      with ("src" ++ "/" ++ Path.unsplit (r :: rest')).
    change ("/" ++ Path.unsplit (T ++ [pkg]) ++ "/"
                ++ "src" ++ "/" ++ Path.unsplit (r :: rest'))
      with ("/" ++ Path.unsplit (T ++ [pkg]) ++ "/src"
                ++ "/" ++ Path.unsplit (r :: rest')).
    rewrite <- PathFacts.append_assoc, replace_first_src by assumption.
    now rewrite PathFacts.append_assoc.
Qed.

Lemma output_path_of_package_source_witness :
  loadFile_newPath sampleDirname sampleCwd
    "/repo/packages/core/src/helpers/index.ts"
  = "/repo/packages/deno/packages/core/helpers/index.ts".
Proof.
  exact (output_path_of_package_source sampleDirname sampleCwd "core"
           ["helpers"; "index.ts"] eq_refl eq_refl eq_refl).
Defined.

(** ** The output of an earlier run *)

Lemma assoc_filter_removed {A : Type} (s : string) (l : list (string * A)) :
  Fs.assoc s (filter (fun ne => negb (String.eqb (fst ne) s)) l) = None.
Proof.
  induction l as [|[k v] l IH]; [reflexivity|]. cbn [filter fst].
  destruct (String.eqb_spec k s) as [->|Hk]; cbn [negb]; [assumption|].
  cbn [Fs.assoc]. destruct (String.eqb_spec s k) as [->|_];
    [contradiction|assumption].
Qed.

Lemma assoc_map_removed (s : string) (g : Fs.Entry -> Fs.Entry)
      (l : list (string * Fs.Entry)) :
  Fs.assoc s (map (fun ne => if String.eqb (fst ne) s
                             then (fst ne, g (snd ne)) else ne) l)
  = option_map g (Fs.assoc s l).
Proof.
  induction l as [|[k v] l IH]; [reflexivity|]. cbn [map fst snd].
  destruct (String.eqb_spec k s) as [->|Hk]; cbn [Fs.assoc].
  - now rewrite String.eqb_refl.
  - destruct (String.eqb_spec s k) as [->|_]; [contradiction|assumption].
Qed.

Lemma lookup_remove_below (segs more : list string) :
  segs <> [] ->
  forall entry, Fs.lookup (Fs.remove entry segs) (segs ++ more) = None.
Proof.
  induction segs as [|s rest IH]; intros Hne entry; [contradiction|].
  cbn [Fs.remove app]. destruct entry as [|es]; [reflexivity|].
  destruct rest as [|s' rest'].
  - cbn [Fs.lookup]. now rewrite assoc_filter_removed.
  - cbn [Fs.lookup].
    rewrite (assoc_map_removed s (fun e => Fs.remove e (s' :: rest'))).
    destruct (Fs.assoc s es) as [child|]; [|reflexivity].
    cbn [option_map]. apply IH. discriminate.
Qed.

Lemma targetDir_segments (__dirname cwd : string) :
  Path.isAbsolute __dirname = true ->
  Path.isAbsolute (targetDir __dirname cwd) = true
  /\ Path.segments (Path.resolve cwd [targetDir __dirname cwd])
     = Path.absSegments (targetDir __dirname cwd)
  /\ Path.absSegments (targetDir __dirname cwd) <> [].
Proof.
  intros Habs.
  assert (Ht : Path.isAbsolute (targetDir __dirname cwd) = true)
    by now apply PathFacts.resolve_isAbsolute.
  split; [assumption|]. split.
  - rewrite PathFacts.resolve_abs by assumption.
    apply PathFacts.segments_canonical;
      [apply PathFacts.absSegments_clean|apply PathFacts.absSegments_noSlash].
  - unfold targetDir.
    rewrite PathFacts.resolve_abs_rel by (assumption || discriminate || reflexivity).
    change (Path.split "../packages") with [".."; "packages"].
    cbn [fold_left].
    rewrite (PathFacts.normStep_clean false _ "packages")
      by (repeat split; discriminate).
    cbn [rev].
    rewrite PathFacts.absSegments_canonical.
    + now destruct (rev _).
    + apply Forall_app. split; [|repeat constructor; discriminate].
      apply Forall_rev, PathFacts.normStep_stays_clean, Forall_rev,
        PathFacts.absSegments_clean.
    + apply Forall_app. split; [|now repeat constructor].
      apply Forall_rev, PathFacts.normStep_keeps;
        [apply Forall_rev, PathFacts.absSegments_noSlash|reflexivity].
Qed.

(** X12. Once [build] has removed the output root, nothing exists at the
    output root or below it: what an earlier run wrote there cannot be
    found by the search for a relative specifier. *)
Theorem stale_output_is_not_seen
        (__dirname cwd : string) (fs : Fs.Entry) (q : string)
        (more : list string) :
  Path.isAbsolute __dirname = true ->
  Path.isAbsolute q = true ->
  Path.absSegments q
  = (Path.absSegments (targetDir __dirname cwd) ++ more)%list ->
  Fs.existsSync (Fs.rm fs cwd (targetDir __dirname cwd)) cwd q = false.
Proof.
  intros Habs Hq Hbelow.
  destruct (targetDir_segments __dirname cwd Habs) as (Ht & Hsegs & Hne).
  unfold Fs.existsSync, Fs.rm. rewrite stat_absolute by assumption.
  now rewrite Hsegs, Hbelow, lookup_remove_below.
Qed.

Lemma stale_output_is_not_seen_witness :
  Fs.existsSync (Fs.rm sampleFs sampleCwd (targetDir sampleDirname sampleCwd))
    sampleCwd "/repo/packages/deno/packages/stale.ts"
  = false
  /\ Fs.existsSync sampleFs sampleCwd "/repo/packages/deno/packages/stale.ts"
     = true.
Proof.
  split; [|reflexivity].
  exact (stale_output_is_not_seen sampleDirname sampleCwd sampleFs
           "/repo/packages/deno/packages/stale.ts" ["stale.ts"]
           eq_refl eq_refl eq_refl).
Defined.

(** ** The form of a rewritten relative specifier *)

Lemma replaceLeadingNonDot_form (s : string) :
  JS.replaceLeadingNonDot s = "" /\ s = ""
  \/ JS.startsWithDot (JS.replaceLeadingNonDot s) = true.
Proof.
  destruct s as [|c s]; [now left|]. right. unfold JS.replaceLeadingNonDot.
  destruct (Ascii.eqb c ".") eqn:Hc; [exact Hc|reflexivity].
Qed.

(** X13. What a relative specifier is rewritten to begins with a dot, or is
    empty; it is empty only when the chosen target is the directory of the
    referencing file itself. *)
Theorem rewritten_relative_specifier_form
        (__dirname cwd : string) (fs : Fs.Entry)
        (fileName specifier emitted : string) :
  JS.startsWithDot specifier = true ->
  rewriteSpecifier __dirname cwd fs fileName specifier = Ok emitted ->
  JS.startsWithDot emitted = true
  \/ emitted = ""
     /\ exists target,
          Path.relative cwd (Path.dirname fileName) target = ""
          /\ In target
               [Path.join [Path.resolve cwd [Path.dirname fileName; specifier];
                           "index.ts"];
                Path.resolve cwd [Path.dirname fileName; specifier] ++ ".ts";
                Path.resolve cwd [Path.dirname fileName; specifier] ++ ".d.ts";
                specifier].
Proof.
  intros Hdot. unfold rewriteSpecifier. rewrite Hdot.
  set (dirName := Path.dirname fileName).
  set (modulePath := Path.resolve cwd [dirName; specifier]).
  assert (Hform : forall target,
             In target [Path.join [modulePath; "index.ts"]; modulePath ++ ".ts";
                        modulePath ++ ".d.ts"; specifier] ->
             Ok (JS.replaceLeadingNonDot (Path.relative cwd dirName target))
             = Ok emitted ->
             JS.startsWithDot emitted = true
             \/ emitted = ""
                /\ exists target,
                     Path.relative cwd dirName target = ""
                     /\ In target [Path.join [modulePath; "index.ts"];
                                   modulePath ++ ".ts"; modulePath ++ ".d.ts";
                                   specifier]).
  { intros target Hin [= <-].
    destruct (replaceLeadingNonDot_form (Path.relative cwd dirName target))
      as [[He Hr]|Hd]; [right|now left].
    split; [assumption|]. now exists target. }
  destruct (Fs.isDirectory fs cwd modulePath).
  { cbn [bind]. apply Hform. now left. }
  destruct (Fs.existsSync fs cwd (modulePath ++ ".ts")).
  { cbn [bind]. apply Hform. right. now left. }
  destruct (Fs.existsSync fs cwd (modulePath ++ ".d.ts")).
  { cbn [bind]. apply Hform. right. right. now left. }
  destruct (Fs.existsSync fs cwd modulePath); cbn [negb bind]; [|discriminate].
  apply Hform. right. right. right. now left.
Qed.

Lemma rewritten_relative_specifier_form_witness :
  JS.startsWithDot "./helpers/index.ts" = true
  \/ "./helpers/index.ts" = ""
     /\ exists target,
          Path.relative sampleCwd
            (Path.dirname "/repo/packages/core/src/index.ts") target = ""
          /\ In target
               [Path.join
                  [Path.resolve sampleCwd
                     [Path.dirname "/repo/packages/core/src/index.ts";
                      "./helpers"];
                   "index.ts"];
                Path.resolve sampleCwd
                  [Path.dirname "/repo/packages/core/src/index.ts"; "./helpers"]
                ++ ".ts";
                Path.resolve sampleCwd
                  [Path.dirname "/repo/packages/core/src/index.ts"; "./helpers"]
                ++ ".d.ts";
                "./helpers"].
Proof.
  exact (rewritten_relative_specifier_form sampleDirname sampleCwd sampleFs
           "/repo/packages/core/src/index.ts" "./helpers" "./helpers/index.ts"
           eq_refl eq_refl).
Defined.
